(** * ProjectGem: the CSV normalizer, the prompt builder, the fence stripper
      and the process action of [src/App.tsx] (and of its earlier
      single-provider variant), embedded in Rocq.

    JavaScript strings are sequences of UTF-16 code units; a code unit is
    modelled as an [N] and a string as a list of code units.  Arrays are
    lists.  The React state of the component is one record, the [setX]
    calls are record updates, and the completion service is a function
    from the request to what the awaited call produced. *)

From Stdlib Require Import String Ascii List NArith Bool Arith Lia.
Import ListNotations.
Local Open Scope list_scope.

(** ** JavaScript strings *)

Definition char := N.
Definition jsstring := list char.

(** A string literal of the source, code unit by code unit (the literals
    of the source are all ASCII). *)
Definition str (s : string) : jsstring :=
  map N_of_ascii (list_ascii_of_string s).

Definition comma : char := 44%N.
Definition newline : char := 10%N.
Definition dquote : char := 34%N.
Definition space : char := 32%N.

Definition nl : jsstring := [newline].
Definition qt : jsstring := [dquote].

Definition jsstring_eqb (a b : jsstring) : bool :=
  if list_eq_dec N.eq_dec a b then true else false.

(** Truthiness of a string: [if (s)], [!s], [cell => cell]. *)
Definition truthy (s : jsstring) : bool :=
  match s with [] => false | _ :: _ => true end.

(** ECMAScript [WhiteSpace] and [LineTerminator] code points: what
    [String.prototype.trim] strips and what [\s] matches. *)
Definition isWhiteSpace (c : char) : bool :=
  ((9 <=? c) && (c <=? 13) || (c =? 32) || (c =? 160) || (c =? 5760)
   || (8192 <=? c) && (c <=? 8202) || (c =? 8232) || (c =? 8233)
   || (c =? 8239) || (c =? 8287) || (c =? 12288) || (c =? 65279))%N.

Fixpoint dropWhile {A} (p : A -> bool) (l : list A) : list A :=
  match l with
  | [] => []
  | x :: l' => if p x then dropWhile p l' else l
  end.

Fixpoint takeWhile {A} (p : A -> bool) (l : list A) : list A :=
  match l with
  | [] => []
  | x :: l' => if p x then x :: takeWhile p l' else []
  end.

Definition dropWhileEnd {A} (p : A -> bool) (l : list A) : list A :=
  rev (dropWhile p (rev l)).

(** [s.trim()] *)
Definition trim (s : jsstring) : jsstring :=
  dropWhileEnd isWhiteSpace (dropWhile isWhiteSpace s).

(** [s.split(sep)] for a one-character separator: never the empty array. *)
Fixpoint split (sep : char) (s : jsstring) : list jsstring :=
  match s with
  | [] => [[]]
  | c :: s' =>
      if (c =? sep)%N then [] :: split sep s'
      else match split sep s' with
           | piece :: pieces => (c :: piece) :: pieces
           | [] => [[c]]
           end
  end.

(** [arr.join(sep)] *)
Fixpoint join (sep : jsstring) (arr : list jsstring) : jsstring :=
  match arr with
  | [] => []
  | [x] => x
  | x :: rest => x ++ sep ++ join sep rest
  end.

(** [arr.slice(k)] for [0 <= k]. *)
Definition slice {A} (k : nat) (arr : list A) : list A := skipn k arr.

(** ** Global replacement by the empty string

    [s.replace(re, '')] with the [g] flag: the matcher is tried at each
    position from the left, the first alternative first; a match is
    deleted and the search resumes after it; a position with no match
    keeps its code unit.  [m at_start rest] is the length of the match of
    [re] at the position where [rest] begins, [at_start] telling whether
    that position is index 0 (the only place [^] matches without the [m]
    flag).  Neither regular expression of the program matches the empty
    string, so a match has a positive length. *)

Fixpoint replace_from (m : bool -> jsstring -> option nat)
    (skip : nat) (s : jsstring) : jsstring :=
  match s with
  | [] => []
  | c :: s' =>
      match skip with
      | S k => replace_from m k s'
      | O =>
          match m false s with
          | Some (S n) => replace_from m n s'
          | _ => c :: replace_from m 0 s'
          end
      end
  end.

Definition replace_global (m : bool -> jsstring -> option nat)
    (s : jsstring) : jsstring :=
  match s with
  | [] => []
  | c :: s' =>
      match m true s with
      | Some (S n) => replace_from m n s'
      | _ => c :: replace_from m 0 s'
      end
  end.

(** The matcher of [/^"|"$/]: a quote at index 0, or a quote that is the
    last code unit. *)
Definition quote_re (at_start : bool) (rest : jsstring) : option nat :=
  match rest with
  | c :: tl =>
      if (c =? dquote)%N
      then if at_start then Some 1
           else match tl with [] => Some 1 | _ :: _ => None end
      else None
  | [] => None
  end.

Definition fence_open : jsstring := str "```csv".
Definition fence_close : jsstring := str "```".

Fixpoint starts_with (p s : jsstring) : bool :=
  match p, s with
  | [], _ => true
  | a :: p', b :: s' => (a =? b)%N && starts_with p' s'
  | _ :: _, [] => false
  end.

(** The matcher of [/^```csv\s*|\s*```$/]: at index 0 the csv-tagged fence
    and the white space after it (greedy, nothing follows so nothing is
    given back); anywhere, white space followed by three backticks that
    end the string (a backtick is no white space, so giving back white
    space never helps). *)
Definition closing (rest : jsstring) : bool :=
  let w := length (takeWhile isWhiteSpace rest) in
  jsstring_eqb (skipn w rest) fence_close.

Definition fence_re (at_start : bool) (rest : jsstring) : option nat :=
  if at_start && starts_with fence_open rest
  then Some (6 + length (takeWhile isWhiteSpace (skipn 6 rest)))
  else
    if closing rest
    then Some (length (takeWhile isWhiteSpace rest) + 3)
    else None.

(** [result.replace(/^```csv\s*|\s*```$/g, '')], the spec's [stripFence]. *)
Definition stripFence (text : jsstring) : jsstring :=
  replace_global fence_re text.

(** ** The CSV normalizer *)

Definition CSVData := list (list jsstring).

(** [cell.trim().replace(/^"|"$/g, '')] *)
Definition cleanCell (cell : jsstring) : jsstring :=
  replace_global quote_re (trim cell).

(** [csvText.split('\n').map(line => line.split(',').map(...))] *)
Definition parseLines (csvText : jsstring) : CSVData :=
  map (fun line => map cleanCell (split comma line)) (split newline csvText).

(** [row[i] !== '']: an index past the end of the row reads [undefined],
    which is not the empty string. *)
Definition cellNotEmpty (i : nat) (row : list jsstring) : bool :=
  match nth_error row i with
  | Some cell => truthy cell
  | None => true
  end.

(** The [while] loop: [n] is the number of indices left below
    [data[0].length], [i] is [firstNonBlankColIndex]. *)
Fixpoint firstNonBlankFrom (data : CSVData) (n i : nat) : nat :=
  match n with
  | O => i
  | S n' =>
      if existsb (cellNotEmpty i) data then i
      else firstNonBlankFrom data n' (S i)
  end.

Definition firstNonBlankColIndex (data : CSVData) : nat :=
  match data with
  | [] => 0
  | row0 :: _ => firstNonBlankFrom data (length row0) 0
  end.

Definition removeLeadingBlankColumns (data : CSVData) : CSVData :=
  match data with
  | [] => data
  | _ :: _ => map (slice (firstNonBlankColIndex data)) data
  end.

(** [lines[0]]; the array is never empty, [[]] stands for [undefined]. *)
Definition headersOf (lines : CSVData) : list jsstring := hd [] lines.

(** [lines.slice(1).filter(line => line.some(cell => cell))] *)
Definition dataOf (lines : CSVData) : CSVData :=
  filter (existsb truthy) (slice 1 lines).

(** The array handed to [removeLeadingBlankColumns]: [[headers, ...data]]. *)
Definition gridOf (csvText : jsstring) : CSVData :=
  headersOf (parseLines csvText) :: dataOf (parseLines csvText).

(** The row has a cell at column [j] and that cell is not the empty
    string. *)
Definition nonEmptyAt (j : nat) (row : list jsstring) : bool :=
  match nth_error row j with
  | Some cell => truthy cell
  | None => false
  end.

(** Column [k] is the first column at which some row of the grid has a
    non-empty cell. *)
Definition firstNonEmptyColumn (grid : CSVData) (k : nat) : Prop :=
  existsb (nonEmptyAt k) grid = true /\
  forall j, j < k -> existsb (nonEmptyAt j) grid = false.

(** The rows of a table, the header row first. *)
Definition tableCells (t : list jsstring * CSVData) : CSVData := fst t :: snd t.

(** Every cell of the table is left as it is by the cell clean-up. *)
Definition cellsSettled (t : list jsstring * CSVData) : bool :=
  forallb (forallb (fun cell => jsstring_eqb (cleanCell cell) cell))
          (tableCells t).

(** What the fence regular expression amounts to, in two steps: the
    csv-tagged fence at the very start of the text goes with the white
    space after it; three backticks at the very end of the text go with
    the white space before them. *)
Definition ends_with (p s : jsstring) : bool := starts_with (rev p) (rev s).

Definition stripOpen (text : jsstring) : jsstring :=
  if starts_with fence_open text
  then dropWhile isWhiteSpace (skipn 6 text)
  else text.

Definition stripClose (text : jsstring) : jsstring :=
  if ends_with fence_close text
  then dropWhileEnd isWhiteSpace (firstn (length text - 3) text)
  else text.

(** The completion service, the external collaborator: what the awaited
    call of the chosen provider produced.  [Returned None] is a missing
    ([null] or [undefined]) text. *)
Inductive Outcome :=
| Returned (content : option jsstring)
| ThrewError (message : jsstring)
| ThrewOther.

(** The model returned no text: a missing or an empty string. *)
Definition noText (o : Outcome) : bool :=
  match o with
  | Returned None => true
  | Returned (Some []) => true
  | _ => false
  end.

(** ** [src/App.tsx] *)
Module App.

Inductive Provider := openai | deepseek | gemini | claude.

Definition providerName (p : Provider) : jsstring :=
  match p with
  | openai => str "openai"
  | deepseek => str "deepseek"
  | gemini => str "gemini"
  | claude => str "claude"
  end.

(** [toUpperCase] on the letters a to z; the program applies it to the
    provider names only. *)
Definition toUpperCase (s : jsstring) : jsstring :=
  map (fun c => if ((97 <=? c) && (c <=? 122))%N then (c - 32)%N else c) s.

Record State := mkState {
  file1Data : CSVData;
  file2Data : CSVData;
  headers1 : list jsstring;
  headers2 : list jsstring;
  processedHeaders : list jsstring;
  processedData : CSVData;
  isProcessing : bool;
  apiKey : jsstring;
  error : jsstring;
  processedResult : option jsstring;
  selectedProvider : Provider;
  selectedModel : jsstring
}.

Definition setProcessedHeaders v (st : State) :=
  mkState (file1Data st) (file2Data st) (headers1 st) (headers2 st)
    v (processedData st) (isProcessing st) (apiKey st) (error st)
    (processedResult st) (selectedProvider st) (selectedModel st).
Definition setProcessedData v (st : State) :=
  mkState (file1Data st) (file2Data st) (headers1 st) (headers2 st)
    (processedHeaders st) v (isProcessing st) (apiKey st) (error st)
    (processedResult st) (selectedProvider st) (selectedModel st).
Definition setIsProcessing v (st : State) :=
  mkState (file1Data st) (file2Data st) (headers1 st) (headers2 st)
    (processedHeaders st) (processedData st) v (apiKey st) (error st)
    (processedResult st) (selectedProvider st) (selectedModel st).
Definition setError v (st : State) :=
  mkState (file1Data st) (file2Data st) (headers1 st) (headers2 st)
    (processedHeaders st) (processedData st) (isProcessing st) (apiKey st) v
    (processedResult st) (selectedProvider st) (selectedModel st).
Definition setProcessedResult v (st : State) :=
  mkState (file1Data st) (file2Data st) (headers1 st) (headers2 st)
    (processedHeaders st) (processedData st) (isProcessing st) (apiKey st)
    (error st) v (selectedProvider st) (selectedModel st).

Definition processCSV (csvText : jsstring) : list jsstring * CSVData :=
  let lines := parseLines csvText in
  let headers := headersOf lines in
  let data := dataOf lines in
  let cleanedData := removeLeadingBlankColumns (headers :: data) in
  let cleanedHeaders := hd [] cleanedData in
  let cleanedRows := slice 1 cleanedData in
  (cleanedHeaders, cleanedRows).

(** [[headers.join(', '), ...data.map(row => row.join(', '))].join('\n')] *)
Definition formatData (headers : list jsstring) (data : CSVData) : jsstring :=
  join nl (join (str ", ") headers :: map (join (str ", ")) data).

(** The template literal of [getPrompt] up to [${csv1}], and between
    [${csv1}] and [${csv2}]; nothing follows [${csv2}]. *)
Definition template_head : jsstring :=
  str "I want to compare these two spreadsheets side-by-side. " ++ nl ++
  str "  First collapse each spreadsheet into one column." ++ nl ++
  str "  Make an index from the row and cell data from First spreadsheet." ++ nl ++
  str "  Use the index to match rows and cells in Second spreadsheet." ++ nl ++
  str "  If there is no matching pair, use an empty cell." ++ nl ++
  str "  Double-check each row carefully. " ++ nl ++
  str "  Show the result as a **well-formed CSV** with exactly two columns. " ++ nl ++
  str "  Do not provide any commentary." ++ nl ++
  nl ++
  str "  First spreadsheet:" ++ nl ++
  str "  ".

Definition template_mid : jsstring :=
  nl ++ nl ++ str "  Second spreadsheet:" ++ nl ++ str "  ".

Definition getPrompt (headers1 : list jsstring) (data1 : CSVData)
    (headers2 : list jsstring) (data2 : CSVData) : jsstring :=
  let csv1 := formatData headers1 data1 in
  let csv2 := formatData headers2 data2 in
  template_head ++ csv1 ++ template_mid ++ csv2.

(** One call of a provider's endpoint: which provider, the model, the
    credential and the prompt sent as the user message. *)
Record Request := mkRequest {
  reqProvider : Provider;
  reqModel : jsstring;
  reqApiKey : jsstring;
  reqPrompt : jsstring
}.

(** [result] after the [switch]: the openai branch reads
    [content || ''], the other branches read the text as it is. *)
Definition resultOf (p : Provider) (content : option jsstring)
  : option jsstring :=
  match p, content with
  | openai, None => Some []
  | _, _ => content
  end.

(** The body of [if (result) { ... }]. *)
Definition receiveResult (result : jsstring) (st : State) : State :=
  let result := stripFence result in
  let st := setProcessedResult (Some result) st in
  let '(newHeaders, newData) := processCSV result in
  let st := setProcessedHeaders newHeaders st in
  setProcessedData newData st.

(** The request of the selected provider's branch of the [switch]. *)
Definition buildRequest (st : State) : Request :=
  let prompt :=
    getPrompt (headers1 st) (file1Data st) (headers2 st) (file2Data st) in
  mkRequest (selectedProvider st) (selectedModel st) (apiKey st) prompt.

(** The selected provider's branch of the [switch]: what it produces and
    the requests it sends.  The openai, deepseek and gemini branches send
    the request and [complete] tells what came of it.  The claude branch
    first builds its client with [new Anthropic({ apiKey })]; the
    component runs in a browser (it reads files with [FileReader] and
    downloads through [document]), where that constructor throws unless
    [dangerouslyAllowBrowser] is passed, which the openai branch does and
    this branch does not: [messages.create] is never reached and nothing
    is sent.  [refusal] is the message of the [Error] the constructor
    throws. *)
Definition runProvider (refusal : jsstring) (complete : Request -> Outcome)
    (st : State) : Outcome * list Request :=
  match selectedProvider st with
  | claude => (ThrewError refusal, [])
  | _ => (complete (buildRequest st), [buildRequest st])
  end.

(** [processWithAI]: the state after the action has run to its end, and
    the requests it issued, in order. *)
Definition processWithAI (refusal : jsstring) (complete : Request -> Outcome)
    (st : State) : State * list Request :=
  if negb (truthy (apiKey st)) then
    (setError (str "Please enter your "
               ++ toUpperCase (providerName (selectedProvider st))
               ++ str " API key first") st, [])
  else if (length (file1Data st) =? 0) || (length (file2Data st) =? 0) then
    (setError (str "Please upload both CSV files first") st, [])
  else
    let st1 := setIsProcessing true st in
    let st1 := setError [] st1 in
    let st1 := setProcessedResult None st1 in
    let run := runProvider refusal complete st in
    let st2 :=
      match fst run with
      | Returned content =>
          match resultOf (selectedProvider st) content with
          | Some result =>
              if truthy result then receiveResult result st1 else st1
          | None => st1
          end
      | ThrewError message => setError message st1
      | ThrewOther =>
          setError (str "An error occurred while processing the files") st1
      end in
    (setIsProcessing false st2, snd run).

(** The spec's [serialize]: a normalized table written back to text the
    way [getPrompt] does. *)
Definition serialize (t : list jsstring * CSVData) : jsstring :=
  formatData (fst t) (snd t).

(** [modelOptions]: the selectable models of each provider. *)
Record ModelOption := mkOption { value : jsstring; label : jsstring }.

Definition modelOptions (p : Provider) : list ModelOption :=
  match p with
  | gemini =>
      [ mkOption (str "gemini-2.0-flash") (str "Gemini 2.0 Flash");
        mkOption (str "gemini-1.5-pro") (str "Gemini 1.5 Pro");
        mkOption (str "gemini-pro") (str "Gemini Pro") ]
  | openai =>
      [ mkOption (str "gpt-3.5-turbo") (str "GPT-3.5 Turbo");
        mkOption (str "gpt-4") (str "GPT-4");
        mkOption (str "gpt-4-turbo-preview") (str "GPT-4 Turbo");
        mkOption (str "gpt-4o") (str "GPT-4o");
        mkOption (str "gpt-4o-mini") (str "GPT-4o Mini");
        mkOption (str "o1-mini") (str "o1 Mini");
        mkOption (str "o3-mini") (str "o3 Mini") ]
  | deepseek =>
      [ mkOption (str "deepseek-chat") (str "DeepSeek Chat");
        mkOption (str "deepseek-coder") (str "DeepSeek Coder") ]
  | claude =>
      [ mkOption (str "claude-3-opus-20240229") (str "Claude 3 Opus");
        mkOption (str "claude-3-sonnet-20240229") (str "Claude 3 Sonnet");
        mkOption (str "claude-2.1") (str "Claude 2.1") ]
  end.

Definition setFile1Data v (st : State) :=
  mkState v (file2Data st) (headers1 st) (headers2 st)
    (processedHeaders st) (processedData st) (isProcessing st) (apiKey st)
    (error st) (processedResult st) (selectedProvider st) (selectedModel st).
Definition setFile2Data v (st : State) :=
  mkState (file1Data st) v (headers1 st) (headers2 st)
    (processedHeaders st) (processedData st) (isProcessing st) (apiKey st)
    (error st) (processedResult st) (selectedProvider st) (selectedModel st).
Definition setHeaders1 v (st : State) :=
  mkState (file1Data st) (file2Data st) v (headers2 st)
    (processedHeaders st) (processedData st) (isProcessing st) (apiKey st)
    (error st) (processedResult st) (selectedProvider st) (selectedModel st).
Definition setHeaders2 v (st : State) :=
  mkState (file1Data st) (file2Data st) (headers1 st) v
    (processedHeaders st) (processedData st) (isProcessing st) (apiKey st)
    (error st) (processedResult st) (selectedProvider st) (selectedModel st).
Definition setSelectedProvider v (st : State) :=
  mkState (file1Data st) (file2Data st) (headers1 st) (headers2 st)
    (processedHeaders st) (processedData st) (isProcessing st) (apiKey st)
    (error st) (processedResult st) v (selectedModel st).
Definition setSelectedModel v (st : State) :=
  mkState (file1Data st) (file2Data st) (headers1 st) (headers2 st)
    (processedHeaders st) (processedData st) (isProcessing st) (apiKey st)
    (error st) (processedResult st) (selectedProvider st) v.

Definition setApiKey v (st : State) :=
  mkState (file1Data st) (file2Data st) (headers1 st) (headers2 st)
    (processedHeaders st) (processedData st) (isProcessing st) v
    (error st) (processedResult st) (selectedProvider st) (selectedModel st).

(** The [useState] initial values; [envKey] is
    [import.meta.env.VITE_GEMINI_API_KEY], [None] when it is not set. *)
Definition initialState (envKey : option jsstring) : State :=
  mkState [] [] [] [] [] [] false
    (match envKey with Some key => key | None => [] end)
    [] None gemini
    (match nth_error (modelOptions gemini) 1 with
     | Some option => value option
     | None => []
     end).

Inductive FileNumber := file1 | file2.

(** [handleFileUpload], with the state after [reader.onload] has run;
    [file] is [event.target.files?.[0]] read as text, [None] when no file
    was picked. *)
Definition handleFileUpload (file : option jsstring) (fileNumber : FileNumber)
    (st : State) : State :=
  match file with
  | None => st
  | Some text =>
      let '(headers, data) := processCSV text in
      match fileNumber with
      | file1 => setFile1Data data (setHeaders1 headers st)
      | file2 => setFile2Data data (setHeaders2 headers st)
      end
  end.

(** [handleProviderChange]: [modelOptions[newProvider][0]] of an empty
    list would be [undefined] and reading its [value] would throw after
    the provider has been set. *)
Definition handleProviderChange (newProvider : Provider) (st : State) : State :=
  let st := setSelectedProvider newProvider st in
  match modelOptions newProvider with
  | option :: _ => setSelectedModel (value option) st
  | [] => st
  end.

(** The model [<select>]: its options are [modelOptions[selectedProvider]]
    and [e.target.value] is the value of the option picked, here by its
    position in the list. *)
Definition handleModelChange (index : nat) (st : State) : State :=
  match nth_error (modelOptions (selectedProvider st)) index with
  | Some option => setSelectedModel (value option) st
  | None => st
  end.

(** What [handleDownload] hands to the browser. *)
Record Download := mkDownload {
  fileName : jsstring;
  mimeType : jsstring;
  content : jsstring
}.

Definition handleDownload (st : State) : option Download :=
  match processedResult st with
  | None => None
  | Some result =>
      if negb (truthy result) then None
      else Some (mkDownload (str "processed-comparison.csv") (str "text/csv") result)
  end.

(** The [disabled] attribute of the process button. *)
Definition processDisabled (st : State) : bool :=
  isProcessing st || (length (file1Data st) =? 0)
  || (length (file2Data st) =? 0) || negb (truthy (apiKey st)).

(** The side-by-side view: [maxRows] rows for each file, each row as wide
    as that file's header row; the cell is
    [data[rowIndex]?.[colIndex] || '']. *)
Definition maxRows (st : State) : nat :=
  Nat.max (length (file1Data st)) (length (file2Data st)).

Definition displayCell (data : CSVData) (rowIndex colIndex : nat) : jsstring :=
  match nth_error data rowIndex with
  | Some row =>
      match nth_error row colIndex with
      | Some cell => if truthy cell then cell else []
      | None => []
      end
  | None => []
  end.

Definition displayPane (data : CSVData) (rows cols : nat) : CSVData :=
  map (fun rowIndex =>
         map (fun colIndex => displayCell data rowIndex colIndex) (seq 0 cols))
      (seq 0 rows).

End App.

(** ** [src/unnamed/part_000]: the single-provider variant *)
Module Part000.

Record State := mkState {
  file1Data : CSVData;
  file2Data : CSVData;
  headers1 : list jsstring;
  headers2 : list jsstring;
  isProcessing : bool;
  apiKey : jsstring;
  error : jsstring;
  processedResult : option jsstring;
  processedHeaders : list jsstring;
  processedData : CSVData
}.

Definition setIsProcessing v (st : State) :=
  mkState (file1Data st) (file2Data st) (headers1 st) (headers2 st)
    v (apiKey st) (error st) (processedResult st)
    (processedHeaders st) (processedData st).
Definition setError v (st : State) :=
  mkState (file1Data st) (file2Data st) (headers1 st) (headers2 st)
    (isProcessing st) (apiKey st) v (processedResult st)
    (processedHeaders st) (processedData st).
Definition setProcessedResult v (st : State) :=
  mkState (file1Data st) (file2Data st) (headers1 st) (headers2 st)
    (isProcessing st) (apiKey st) (error st) v
    (processedHeaders st) (processedData st).
Definition setProcessedHeaders v (st : State) :=
  mkState (file1Data st) (file2Data st) (headers1 st) (headers2 st)
    (isProcessing st) (apiKey st) (error st) (processedResult st)
    v (processedData st).
Definition setProcessedData v (st : State) :=
  mkState (file1Data st) (file2Data st) (headers1 st) (headers2 st)
    (isProcessing st) (apiKey st) (error st) (processedResult st)
    (processedHeaders st) v.

(** The loop of this file's own [removeLeadingBlankColumns]. *)
Fixpoint firstNonBlankFrom (data : CSVData) (n i : nat) : nat :=
  match n with
  | O => i
  | S n' =>
      if existsb (fun row => match nth_error row i with
                             | Some cell => truthy cell
                             | None => true
                             end) data
      then i
      else firstNonBlankFrom data n' (S i)
  end.

Definition removeLeadingBlankColumns (data : CSVData) : CSVData :=
  match data with
  | [] => data
  | row0 :: _ =>
      let firstNonBlankColIndex := firstNonBlankFrom data (length row0) 0 in
      map (fun row => slice firstNonBlankColIndex row) data
  end.

Definition processCSV (csvText : jsstring) : list jsstring * CSVData :=
  let lines :=
    map (fun line =>
           map (fun cell => replace_global quote_re (trim cell))
               (split comma line))
        (split newline csvText) in
  let headers := hd [] lines in
  let data := filter (fun line => existsb (fun cell => truthy cell) line)
                     (slice 1 lines) in
  let cleanedData := removeLeadingBlankColumns (headers :: data) in
  let cleanedHeaders := hd [] cleanedData in
  let cleanedRows := slice 1 cleanedData in
  (cleanedHeaders, cleanedRows).

(** [[headers, ...data].map(row => row.join(',')).join('\n')] *)
Definition toCSV (headers : list jsstring) (data : CSVData) : jsstring :=
  join nl (map (join (str ",")) (headers :: data)).

Definition template_head : jsstring :=
  str "I want to compare these two spreadsheets side-by-side. " ++ nl ++
  str "First collapse each spreadsheet into one column." ++ nl ++
  str "Double-check that each spreadsheet is one column only." ++ nl ++
  str "Now start matching rows." ++ nl ++
  str "If a row exists in one spreadsheet but not the other, use an empty cell to keep alignment. " ++ nl ++
  str "Double-check each row carefully. " ++ nl ++
  str "Show the result as a CSV. " ++ nl ++
  str "Do not provide any commentary." ++ nl ++
  nl ++
  str "First spreadsheet:" ++ nl.

Definition template_mid : jsstring :=
  nl ++ nl ++ str "Second spreadsheet:" ++ nl.

Record Request := mkRequest {
  reqModel : jsstring;
  reqApiKey : jsstring;
  reqContent : jsstring
}.

Definition receiveResult (result : jsstring) (st : State) : State :=
  let result := stripFence result in
  let st := setProcessedResult (Some result) st in
  let '(newHeaders, newData) := processCSV result in
  let st := setProcessedHeaders newHeaders st in
  setProcessedData newData st.

Definition buildRequest (st : State) : Request :=
  let csv1 := toCSV (headers1 st) (file1Data st) in
  let csv2 := toCSV (headers2 st) (file2Data st) in
  mkRequest (str "o3-mini") (apiKey st)
    (template_head ++ csv1 ++ template_mid ++ csv2).

Definition processWithOpenAI (complete : Request -> Outcome) (st : State)
  : State * list Request :=
  if negb (truthy (apiKey st)) then
    (setError (str "Please enter your OpenAI API key first") st, [])
  else if (length (file1Data st) =? 0) || (length (file2Data st) =? 0) then
    (setError (str "Please upload both CSV files first") st, [])
  else
    let st1 := setIsProcessing true st in
    let st1 := setError [] st1 in
    let st1 := setProcessedResult None st1 in
    let request := buildRequest st in
    let st2 :=
      match complete request with
      | Returned (Some result) =>
          if truthy result then receiveResult result st1 else st1
      | Returned None => st1
      | ThrewError message => setError message st1
      | ThrewOther =>
          setError (str "An error occurred while processing the files") st1
      end in
    (setIsProcessing false st2, [request]).

End Part000.

(** ** Notions used to state properties *)

(** A code unit that is neither white space nor a double quote. *)
Definition plainEdge (c : char) : bool :=
  negb (isWhiteSpace c) && negb (c =? dquote)%N.

(** The cell is empty, or it begins and ends with a code unit that is
    neither white space nor a double quote. *)
Definition edgeFree (cell : jsstring) : bool :=
  match cell with
  | [] => true
  | c :: _ => plainEdge c && plainEdge (last cell c)
  end.

Definition carriageReturn : char := 13%N.

(** The text with every newline turned into carriage return, newline. *)
Definition crlf (text : jsstring) : jsstring :=
  flat_map (fun c => if (c =? newline)%N then [carriageReturn; newline] else [c])
           text.

(** [f] applied to every element but the last one, and to the last one
    only. *)
Fixpoint mapInit {A} (f : A -> A) (l : list A) : list A :=
  match l with
  | [] => []
  | [x] => [x]
  | x :: rest => f x :: mapInit f rest
  end.

Fixpoint mapLast {A} (f : A -> A) (l : list A) : list A :=
  match l with
  | [] => []
  | [x] => [f x]
  | x :: rest => x :: mapLast f rest
  end.

(** The settings of the component are consistent: the selected model is
    one of the selected provider's models. *)
Definition modelValid (st : App.State) : Prop :=
  In (App.selectedModel st)
     (map App.value (App.modelOptions (App.selectedProvider st))).

(** Every row of the two loaded tables and of the processed table has a
    non-empty cell. *)
Definition tablesClean (st : App.State) : bool :=
  forallb (existsb truthy) (App.file1Data st)
  && forallb (existsb truthy) (App.file2Data st)
  && forallb (existsb truthy) (App.processedData st).

(** The message that the [catch] block shows for what the awaited call
    threw. *)
Definition thrownMessage (o : Outcome) : option jsstring :=
  match o with
  | ThrewError message => Some message
  | ThrewOther => Some (str "An error occurred while processing the files")
  | Returned _ => None
  end.

(** A row cut or filled with empty cells to [cols] cells. *)
Definition fitRow (cols : nat) (row : list jsstring) : list jsstring :=
  firstn cols row ++ repeat [] (cols - length row).

(** What the user can do to the component, one event at a time: the
    controls are disabled while a request is in flight, so the process
    action runs to its end before the next event. *)
Inductive Event :=
| Upload (file : option jsstring) (fileNumber : App.FileNumber)
| ChangeProvider (newProvider : App.Provider)
| ChangeModel (index : nat)
| ChangeKey (key : jsstring)
| Process (complete : App.Request -> Outcome).

Definition applyEvent (refusal : jsstring) (st : App.State) (e : Event)
  : App.State :=
  match e with
  | Upload file fileNumber => App.handleFileUpload file fileNumber st
  | ChangeProvider newProvider => App.handleProviderChange newProvider st
  | ChangeModel index => App.handleModelChange index st
  | ChangeKey key => App.setApiKey key st
  | Process complete => fst (App.processWithAI refusal complete st)
  end.

Definition runEvents (refusal : jsstring) (events : list Event)
    (st : App.State) : App.State :=
  fold_left (applyEvent refusal) events st.

(** The processed table on display is the normalization of the text
    offered for download. *)
Definition resultShown (st : App.State) : Prop :=
  forall result, App.processedResult st = Some result ->
    (App.processedHeaders st, App.processedData st) = App.processCSV result.

(** [needle] occurs in [hay] as a contiguous piece. *)
Fixpoint contains (needle hay : jsstring) : bool :=
  starts_with needle hay
  || match hay with
     | [] => false
     | _ :: hay' => contains needle hay'
     end.

(** What holds of the component between two events. *)
Definition consistent (st : App.State) : Prop :=
  tablesClean st = true
  /\ modelValid st
  /\ App.isProcessing st = false
  /\ resultShown st.

(** ** Sample states: two one-row tables loaded, an earlier result on
    display *)

Definition sampleApp (key : jsstring) : App.State :=
  App.mkState [[str "1"; str "2"]] [[str "1"; str "3"]]
    [str "a"; str "b"] [str "a"; str "c"]
    [str "old"] [[str "row"]] false key [] (Some (str "old" ++ nl ++ str "row"))
    App.gemini (str "gemini-1.5-pro").

Definition sampleClaude (key : jsstring) : App.State :=
  App.handleProviderChange App.claude (sampleApp key).

Definition samplePart000 (key : jsstring) : Part000.State :=
  Part000.mkState [[str "1"; str "2"]] [[str "1"; str "3"]]
    [str "a"; str "b"] [str "a"; str "c"]
    false key [] (Some (str "old" ++ nl ++ str "row"))
    [str "old"] [[str "row"]].

(** * Properties *)

Example processCSV_drops_blank_row :
  App.processCSV (str "a,b" ++ nl ++ str "1,2" ++ nl ++ str "," ++ nl ++ str "3,4")
  = ([str "a"; str "b"], [[str "1"; str "2"]; [str "3"; str "4"]]).
Proof. reflexivity. Qed.

Example processCSV_empty_input : App.processCSV [] = ([], []).
Proof. reflexivity. Qed.

Example processCSV_single_line :
  App.processCSV (str "a,b") = ([str "a"; str "b"], []).
Proof. reflexivity. Qed.

(** ** Lists and strings *)

Section ListFacts.
Context {A : Type} (p : A -> bool).

Lemma takeWhile_dropWhile (l : list A) :
  takeWhile p l ++ dropWhile p l = l.
Proof.
  induction l as [|x l IH]; simpl; [reflexivity|].
  destruct (p x); simpl; [now rewrite IH | reflexivity].
Qed.

Lemma takeWhile_all (l : list A) : forallb p (takeWhile p l) = true.
Proof.
  induction l as [|x l IH]; simpl; [reflexivity|].
  destruct (p x) eqn:E; simpl; [now rewrite E | reflexivity].
Qed.

Lemma dropWhile_head (l : list A) x l' :
  dropWhile p l = x :: l' -> p x = false.
Proof.
  induction l as [|y l IH]; simpl; [discriminate|].
  destruct (p y) eqn:E; [exact IH|].
  intros H; injection H as -> _; exact E.
Qed.

Lemma dropWhile_app_all (w l : list A) :
  forallb p w = true -> dropWhile p (w ++ l) = dropWhile p l.
Proof.
  induction w as [|x w IH]; simpl; [reflexivity|].
  destruct (p x); simpl; [exact IH | discriminate].
Qed.

Lemma takeWhile_app_all (w l : list A) :
  forallb p w = true -> takeWhile p (w ++ l) = w ++ takeWhile p l.
Proof.
  induction w as [|x w IH]; simpl; [reflexivity|].
  destruct (p x); simpl; [intros H; now rewrite IH | discriminate].
Qed.

Lemma dropWhile_incl (l : list A) x : In x (dropWhile p l) -> In x l.
Proof.
  induction l as [|y l IH]; simpl; [tauto|].
  destruct (p y); simpl; tauto.
Qed.

Lemma dropWhileEnd_incl (l : list A) x : In x (dropWhileEnd p l) -> In x l.
Proof.
  unfold dropWhileEnd. rewrite <- in_rev. intros H.
  apply dropWhile_incl in H. now apply in_rev.
Qed.

(** A list is what [dropWhileEnd] keeps, followed by a run that
    satisfies [p]. *)
Lemma dropWhileEnd_split (l : list A) :
  exists w, l = dropWhileEnd p l ++ w /\ forallb p w = true.
Proof.
  exists (rev (takeWhile p (rev l))). split.
  - unfold dropWhileEnd. rewrite <- rev_app_distr, takeWhile_dropWhile.
    now rewrite rev_involutive.
  - rewrite forallb_forall. intros x Hx. apply in_rev in Hx.
    pose proof (takeWhile_all (rev l)) as H.
    rewrite forallb_forall in H. now apply H.
Qed.

Lemma dropWhileEnd_last (l b : list A) x :
  dropWhileEnd p l = b ++ [x] -> p x = false.
Proof.
  unfold dropWhileEnd. intros H.
  apply (f_equal (@rev A)) in H.
  rewrite rev_involutive, rev_app_distr in H. simpl in H.
  now apply dropWhile_head in H.
Qed.

End ListFacts.

(** ** The normalizer: the column scan *)

Lemma truthy_false (s : jsstring) : truthy s = false -> s = [].
Proof. destruct s; [reflexivity | discriminate]. Qed.

Lemma cellNotEmpty_false (i : nat) (row : list jsstring) :
  cellNotEmpty i row = false -> nth_error row i = Some [].
Proof.
  unfold cellNotEmpty. destruct (nth_error row i) as [c|]; [|discriminate].
  intros H. now rewrite (truthy_false _ H).
Qed.

Lemma column_blank (data : CSVData) (i : nat) :
  existsb (cellNotEmpty i) data = false ->
  forall row, In row data -> nth_error row i = Some [].
Proof.
  intros H row Hin. apply cellNotEmpty_false.
  destruct (cellNotEmpty i row) eqn:E; [|reflexivity].
  assert (existsb (cellNotEmpty i) data = true)
    by (apply existsb_exists; eauto).
  congruence.
Qed.

(** The loop stops at the first index in [[i, i+n)] whose column is not
    blank, or at [i+n]. *)
Lemma firstNonBlankFrom_spec (data : CSVData) (n i : nat) :
  let k := firstNonBlankFrom data n i in
  i <= k <= i + n /\
  (forall j, i <= j < k -> existsb (cellNotEmpty j) data = false) /\
  (k < i + n -> existsb (cellNotEmpty k) data = true).
Proof.
  revert i. induction n as [|n IH]; intros i; simpl.
  - repeat split; lia.
  - destruct (existsb (cellNotEmpty i) data) eqn:E.
    + repeat split; try lia. intros _. exact E.
    + destruct (IH (S i)) as (Hb & Hblank & Hstop).
      repeat split; try lia.
      * intros j Hj. destruct (Nat.eq_dec j i) as [->|]; [exact E|].
        apply Hblank. lia.
      * intros Hk. apply Hstop. lia.
Qed.

Lemma firstNonBlankColIndex_spec (headers : list jsstring) (data : CSVData) :
  let grid := headers :: data in
  let k := firstNonBlankColIndex grid in
  k <= length headers /\
  (forall j row, j < k -> In row grid -> nth_error row j = Some []) /\
  (k < length headers -> existsb (cellNotEmpty k) grid = true).
Proof.
  intros grid k.
  destruct (firstNonBlankFrom_spec grid (length headers) 0)
    as (Hb & Hblank & Hstop).
  fold grid in Hb, Hblank, Hstop. change (firstNonBlankFrom grid (length headers) 0) with k in *.
  repeat split; try lia.
  - intros j row Hj Hin. apply (column_blank grid j); [apply Hblank; lia | exact Hin].
  - intros Hk. apply Hstop. lia.
Qed.

Lemma existsb_truthy_nth (row : list jsstring) :
  existsb truthy row = true ->
  exists j c, nth_error row j = Some c /\ truthy c = true.
Proof.
  intros H. apply existsb_exists in H as (c & Hin & Hc).
  apply In_nth_error in Hin as (j & Hj). eauto.
Qed.

Lemma nth_error_skipn {A} (k j : nat) (l : list A) :
  nth_error (skipn k l) j = nth_error l (k + j).
Proof.
  revert l. induction k as [|k IH]; intros l; simpl; [reflexivity|].
  destruct l; simpl; [now destruct j | apply IH].
Qed.

(** A row that passed the filter keeps a non-empty cell when the blank
    columns in front of it are cut off. *)
Lemma slice_keeps_nonempty (headers : list jsstring) (data : CSVData) row :
  In row (headers :: data) ->
  existsb truthy row = true ->
  existsb truthy (slice (firstNonBlankColIndex (headers :: data)) row) = true.
Proof.
  intros Hin Hrow.
  destruct (firstNonBlankColIndex_spec headers data) as (_ & Hblank & _).
  set (k := firstNonBlankColIndex (headers :: data)) in *.
  apply existsb_truthy_nth in Hrow as (j & c & Hj & Hc).
  assert (k <= j) as Hle.
  { destruct (le_lt_dec k j) as [|Hlt]; [assumption|].
    rewrite (Hblank j row Hlt Hin) in Hj. injection Hj as <-. discriminate. }
  apply existsb_exists. exists c. split; [|exact Hc].
  apply (nth_error_In _ (j - k)). unfold slice.
  rewrite nth_error_skipn. now replace (k + (j - k)) with j by lia.
Qed.

Lemma dataOf_rows (lines : CSVData) row :
  In row (dataOf lines) -> existsb truthy row = true.
Proof. unfold dataOf. intros H. now apply filter_In in H. Qed.

Lemma processCSV_unfold (csvText : jsstring) :
  let lines := parseLines csvText in
  let k := firstNonBlankColIndex (gridOf csvText) in
  App.processCSV csvText
  = (slice k (headersOf lines), map (slice k) (dataOf lines)).
Proof. reflexivity. Qed.

(** The stopping column holds a real non-empty cell: the [undefined] that
    an index past the end of a row reads is never what stops the loop. *)
Lemma stop_column_nonEmpty (headers : list jsstring) (data : CSVData) :
  (forall row, In row data -> existsb truthy row = true) ->
  let grid := headers :: data in
  let k := firstNonBlankColIndex grid in
  k < length headers -> existsb (nonEmptyAt k) grid = true.
Proof.
  intros Hdata grid k Hk.
  destruct (firstNonBlankColIndex_spec headers data) as (_ & Hblank & Hstop).
  fold grid in Hblank, Hstop. fold k in Hblank, Hstop.
  specialize (Hstop Hk). apply existsb_exists in Hstop as (row & Hin & Hne).
  apply existsb_exists. exists row. split; [exact Hin|].
  unfold cellNotEmpty in Hne. unfold nonEmptyAt.
  destruct (nth_error row k) as [c|] eqn:E; [exact Hne|].
  exfalso. apply nth_error_None in E.
  destruct Hin as [<-|Hin]; [lia|].
  destruct (existsb_truthy_nth row (Hdata row Hin)) as (j & c & Hj & Hc).
  assert (j < length row) by (apply nth_error_Some; congruence).
  rewrite (Hblank j row) in Hj; [|lia|now right].
  injection Hj as <-. discriminate.
Qed.

(** C1 (as amended): the scan is bounded by the header row.  For every
    input, [k] is at most the header length, every row has an empty cell
    at each column below [k], and [k] either is a column at which some row
    has a non-empty cell or equals the header length; the returned headers
    and rows are the parsed ones with exactly the columns [[0, k)] cut off;
    and [",,a,b\n,,1,2"] normalizes to headers [a, b] and the row [1, 2]. *)
Theorem processCSV_strips_blank_prefix_within_header :
  (forall csvText : jsstring,
     let lines := parseLines csvText in
     let grid := gridOf csvText in
     let k := firstNonBlankColIndex grid in
     App.processCSV csvText
       = (slice k (headersOf lines), map (slice k) (dataOf lines))
     /\ k <= length (headersOf lines)
     /\ (forall j row, j < k -> In row grid -> nth_error row j = Some [])
     /\ (k = length (headersOf lines) \/ existsb (nonEmptyAt k) grid = true))
  /\ App.processCSV (str ",,a,b" ++ nl ++ str ",,1,2")
     = ([str "a"; str "b"], [[str "1"; str "2"]]).
Proof.
  split; [|reflexivity].
  intros csvText lines grid k.
  destruct (firstNonBlankColIndex_spec (headersOf lines) (dataOf lines))
    as (Hle & Hblank & _).
  split; [reflexivity|]. split; [exact Hle|]. split; [exact Hblank|].
  destruct (Nat.eq_dec k (length (headersOf lines))) as [|Hne]; [now left|].
  right.
  assert (Hlt : k < length (headersOf lines)).
  { change k with (firstNonBlankColIndex (headersOf lines :: dataOf lines)) in *. lia. }
  apply (stop_column_nonEmpty (headersOf lines) (dataOf lines));
    [intros row; apply dataOf_rows | exact Hlt].
Qed.

Lemma processCSV_strips_blank_prefix_witness :
  let csvText := str ",,a" ++ nl ++ str ",,1" in
  1 < firstNonBlankColIndex (gridOf csvText) /\
  In [[]; []; str "1"] (gridOf csvText) /\
  nth_error [[]; []; str "1"] 1 = Some [].
Proof.
  cbv zeta. split; [vm_compute; lia|]. split; [vm_compute; tauto|].
  destruct processCSV_strips_blank_prefix_within_header as [H _].
  destruct (H (str ",,a" ++ nl ++ str ",,1")) as (_ & _ & Hblank & _).
  apply Hblank; [vm_compute; lia | vm_compute; tauto].
Defined.

(** C1 (as stated) fails on a ragged table whose header row is blank and
    shorter than a data row: for [",\n,,,x"] the first column with a
    non-empty cell is column 3, the loop stops at the header length 2,
    and the returned row keeps a blank column in front. *)
Lemma processCSV_first_nonblank_counterexample :
  let csvText := str "," ++ nl ++ str ",,,x" in
  let grid := gridOf csvText in
  firstNonEmptyColumn grid 3
  /\ firstNonBlankColIndex grid = 2
  /\ ~ firstNonEmptyColumn grid (firstNonBlankColIndex grid)
  /\ App.processCSV csvText = ([], [[[]; str "x"]]).
Proof.
  cbv zeta. repeat split.
  - intros j Hj.
    destruct j as [|[|[|j]]]; [reflexivity..|lia].
  - intros [H _]. vm_compute in H. discriminate.
Qed.

(** C5: when every parsed cell is the empty string, no data row passes
    the filter, the grid is the header row alone, [k] is the header length
    (the column count), and the headers and the rows come back empty. *)
Theorem processCSV_all_blank (csvText : jsstring) :
  forallb (forallb (fun cell => negb (truthy cell))) (parseLines csvText) = true ->
  gridOf csvText = [headersOf (parseLines csvText)]
  /\ firstNonBlankColIndex (gridOf csvText) = length (headersOf (parseLines csvText))
  /\ App.processCSV csvText = ([], []).
Proof.
  intros Hblank.
  rewrite forallb_forall in Hblank.
  assert (Hrow : forall row, In row (parseLines csvText) -> existsb truthy row = false).
  { intros row Hin. specialize (Hblank row Hin). rewrite forallb_forall in Hblank.
    destruct (existsb truthy row) eqn:E; [|reflexivity].
    apply existsb_exists in E as (c & Hc & Ht).
    specialize (Hblank c Hc). rewrite Ht in Hblank. discriminate. }
  assert (Hdata : dataOf (parseLines csvText) = []).
  { unfold dataOf, slice.
    destruct (filter (existsb truthy) (skipn 1 (parseLines csvText))) as [|r rs] eqn:E;
      [reflexivity|].
    assert (In r (r :: rs)) as Hin by now left.
    rewrite <- E in Hin. apply filter_In in Hin as [Hin Ht].
    assert (In r (parseLines csvText)).
    { destruct (parseLines csvText); simpl in Hin; [destruct Hin | now right]. }
    rewrite Hrow in Ht by assumption. discriminate. }
  assert (Hgrid : gridOf csvText = [headersOf (parseLines csvText)]).
  { unfold gridOf. now rewrite Hdata. }
  set (headers := headersOf (parseLines csvText)) in *.
  assert (Hh : existsb truthy headers = false).
  { unfold headers, headersOf.
    destruct (parseLines csvText) as [|h t] eqn:E; [reflexivity|].
    apply Hrow. try rewrite E. now left. }
  assert (Hk : firstNonBlankColIndex (gridOf csvText) = length headers).
  { rewrite Hgrid.
    destruct (firstNonBlankColIndex_spec headers []) as (Hle & _ & Hstop).
    destruct (Nat.eq_dec (firstNonBlankColIndex [headers]) (length headers))
      as [|Hne]; [assumption|].
    exfalso. assert (Hlt : firstNonBlankColIndex [headers] < length headers) by lia.
    specialize (Hstop Hlt). cbn [existsb] in Hstop. rewrite orb_false_r in Hstop.
    unfold cellNotEmpty in Hstop.
    destruct (nth_error headers (firstNonBlankColIndex [headers])) as [c|] eqn:E.
    - apply nth_error_In in E.
      assert (existsb truthy headers = true)
        by (apply existsb_exists; exists c; split; assumption).
      congruence.
    - apply nth_error_None in E. lia. }
  split; [exact Hgrid|]. split; [exact Hk|].
  rewrite processCSV_unfold. cbv zeta. rewrite Hk, Hdata.
  fold headers. unfold slice. now rewrite skipn_all.
Qed.

Lemma processCSV_all_blank_witness :
  let csvText := str ",," ++ nl ++ str "," in
  forallb (forallb (fun cell => negb (truthy cell))) (parseLines csvText) = true
  /\ firstNonBlankColIndex (gridOf csvText) = 3
  /\ App.processCSV csvText = ([], []).
Proof.
  cbv zeta. split; [reflexivity|].
  destruct (processCSV_all_blank (str ",," ++ nl ++ str ","))
    as (_ & Hk & Hout); [reflexivity|].
  split; [exact Hk | exact Hout].
Defined.

(** C9: every row that [processCSV] returns has a non-empty cell. *)
Theorem processCSV_rows_nonblank (csvText : jsstring) :
  forallb (existsb truthy) (snd (App.processCSV csvText)) = true.
Proof.
  rewrite processCSV_unfold. cbv zeta. simpl snd.
  apply forallb_forall. intros row Hin.
  apply in_map_iff in Hin as (row0 & <- & Hin0).
  apply slice_keeps_nonempty.
  - now right.
  - now apply dataOf_rows in Hin0.
Qed.

(** C10: the normalizer of [src/App.tsx] and the normalizer of the
    single-provider variant return the same headers and the same rows on
    every input. *)
Theorem processCSV_variants_agree (csvText : jsstring) :
  App.processCSV csvText = Part000.processCSV csvText.
Proof.
  unfold App.processCSV, Part000.processCSV,
    removeLeadingBlankColumns, Part000.removeLeadingBlankColumns,
    firstNonBlankColIndex, headersOf, dataOf, parseLines, cleanCell.
  cbv zeta.
  assert (Hloop : forall data n i,
             firstNonBlankFrom data n i = Part000.firstNonBlankFrom data n i).
  { intros data n. induction n as [|n IH]; intros i; simpl; [reflexivity|].
    unfold cellNotEmpty at 1.
    destruct (existsb _ data); [reflexivity | apply IH]. }
  now rewrite Hloop.
Qed.

(** ** The fence stripper *)

Lemma replace_from_skip m (n : nat) (s : jsstring) :
  replace_from m n s = replace_from m 0 (skipn n s).
Proof.
  revert n. induction s as [|c s IH]; intros n.
  - now destruct n.
  - destruct n as [|n]; [reflexivity|]. simpl replace_from at 1.
    rewrite IH. reflexivity.
Qed.

Lemma dropWhile_skipn {A} (p : A -> bool) (l : list A) :
  dropWhile p l = skipn (length (takeWhile p l)) l.
Proof.
  induction l as [|x l IH]; simpl; [reflexivity|].
  destruct (p x); simpl; [exact IH | reflexivity].
Qed.

Lemma starts_with_app (p s : jsstring) : starts_with p (p ++ s) = true.
Proof.
  induction p as [|a p IH]; simpl; [reflexivity|].
  now rewrite N.eqb_refl, IH.
Qed.

Lemma starts_with_inv (p s : jsstring) :
  starts_with p s = true -> exists r, s = p ++ r.
Proof.
  revert s. induction p as [|a p IH]; intros s H; simpl in *.
  - now exists s.
  - destruct s as [|b s]; [discriminate|].
    apply andb_prop in H as [Hab Hp]. apply N.eqb_eq in Hab as ->.
    destruct (IH s Hp) as [r ->]. now exists r.
Qed.

Lemma ends_with_app (p s : jsstring) : ends_with p (s ++ p) = true.
Proof. unfold ends_with. rewrite rev_app_distr. apply starts_with_app. Qed.

Lemma ends_with_inv (p s : jsstring) :
  ends_with p s = true -> exists r, s = r ++ p.
Proof.
  unfold ends_with. intros H. apply starts_with_inv in H as [r Hr].
  exists (rev r). apply (f_equal (@rev char)) in Hr.
  now rewrite rev_involutive, rev_app_distr, rev_involutive in Hr.
Qed.

Lemma jsstring_eqb_eq (a b : jsstring) : jsstring_eqb a b = true <-> a = b.
Proof.
  unfold jsstring_eqb. destruct (list_eq_dec N.eq_dec a b); split; congruence.
Qed.

Lemma fence_re_inner (rest : jsstring) :
  fence_re false rest
  = if closing rest
    then Some (length (takeWhile isWhiteSpace rest) + 3)
    else None.
Proof. reflexivity. Qed.

Lemma closing_inv (rest : jsstring) :
  closing rest = true ->
  exists w, forallb isWhiteSpace w = true /\ rest = w ++ fence_close.
Proof.
  unfold closing. intros H. apply jsstring_eqb_eq in H.
  exists (takeWhile isWhiteSpace rest). split; [apply takeWhile_all|].
  rewrite <- H, <- dropWhile_skipn. symmetry. apply takeWhile_dropWhile.
Qed.

Lemma closing_intro (w : jsstring) :
  forallb isWhiteSpace w = true -> closing (w ++ fence_close) = true.
Proof.
  intros H. unfold closing. apply jsstring_eqb_eq.
  rewrite takeWhile_app_all by assumption.
  change (takeWhile isWhiteSpace fence_close) with (@nil char).
  rewrite app_nil_r, skipn_app, skipn_all, Nat.sub_diag. reflexivity.
Qed.

(** Up to the closing fence: the text before the trailing white space is
    kept as it is. *)
Lemma replace_from_body (body w : jsstring) :
  forallb isWhiteSpace w = true ->
  (forall b x, body = b ++ [x] -> isWhiteSpace x = false) ->
  replace_from fence_re 0 (body ++ w ++ fence_close) = body.
Proof.
  intros Hw. induction body as [|c body IH]; intros Hlast.
  - simpl app.
    destruct (w ++ fence_close) as [|c t] eqn:E.
    { destruct w; discriminate. }
    simpl replace_from. rewrite fence_re_inner, <- E.
    rewrite closing_intro by assumption.
    rewrite takeWhile_app_all by assumption.
    change (takeWhile isWhiteSpace fence_close) with (@nil char).
    rewrite app_nil_r, Nat.add_comm. simpl.
    rewrite replace_from_skip, skipn_all2; [reflexivity|].
    apply (f_equal (@length char)) in E. rewrite length_app in E.
    simpl in E. lia.
  - simpl app. simpl replace_from. rewrite fence_re_inner.
    destruct (closing (c :: body ++ w ++ fence_close)) eqn:E.
    + exfalso. apply closing_inv in E as (w' & Hw' & E).
      change (c :: body ++ w ++ fence_close)
        with ((c :: body) ++ w ++ fence_close) in E.
      rewrite app_assoc in E. apply app_inv_tail in E.
      destruct (exists_last (l := c :: body)) as (b & x & Hbx); [discriminate|].
      pose proof (Hlast b x Hbx) as Hx.
      rewrite forallb_forall in Hw'.
      assert (isWhiteSpace x = true); [|congruence].
      apply Hw'. rewrite <- E, Hbx.
      apply in_or_app. left. apply in_or_app. right. now left.
    + f_equal. apply IH. intros b x Hb. apply (Hlast (c :: b) x).
      now rewrite Hb.
Qed.

Lemma replace_from_unchanged (text : jsstring) :
  (forall pre rest, text = pre ++ rest -> closing rest = false) ->
  replace_from fence_re 0 text = text.
Proof.
  induction text as [|c text IH]; intros H; [reflexivity|].
  simpl replace_from. rewrite fence_re_inner, (H [] (c :: text) eq_refl).
  f_equal. apply IH. intros pre rest E. apply (H (c :: pre) rest).
  now rewrite E.
Qed.

Lemma replace_from_stripClose (text : jsstring) :
  replace_from fence_re 0 text = stripClose text.
Proof.
  unfold stripClose. destruct (ends_with fence_close text) eqn:E.
  - apply ends_with_inv in E as (t0 & ->).
    rewrite length_app. change (length fence_close) with 3.
    rewrite Nat.add_sub, firstn_app, Nat.sub_diag, firstn_all.
    simpl firstn. rewrite app_nil_r.
    destruct (dropWhileEnd_split isWhiteSpace t0) as (w & Ht0 & Hw).
    rewrite Ht0 at 1. rewrite <- app_assoc.
    apply replace_from_body; [exact Hw|].
    intros b x Hb. apply (dropWhileEnd_last isWhiteSpace t0 b x Hb).
  - apply replace_from_unchanged. intros pre rest Ht.
    destruct (closing rest) eqn:Hc; [|reflexivity].
    apply closing_inv in Hc as (w & _ & ->).
    rewrite Ht, app_assoc, ends_with_app in E. discriminate.
Qed.

Lemma stripFence_stripOpen (text : jsstring) :
  stripFence text = replace_from fence_re 0 (stripOpen text).
Proof.
  unfold stripFence, stripOpen, replace_global.
  destruct text as [|c text]; [reflexivity|].
  unfold fence_re at 1.
  destruct (starts_with fence_open (c :: text)) eqn:E.
  - cbn [andb Nat.add]. rewrite replace_from_skip. f_equal.
    rewrite dropWhile_skipn.
    change (skipn 6 (c :: text)) with (skipn 5 text).
    rewrite skipn_skipn. f_equal. lia.
  - cbn [andb]. reflexivity.
Qed.

(** C4 (as amended): on every text, the replacement removes the
    csv-tagged opening fence when it stands at the very start of the text,
    with the white space after it, and then three backticks when they
    stand at the very end of the text, with the white space before them;
    nothing else is removed. *)
Theorem stripFence_characterization (text : jsstring) :
  stripFence text = stripClose (stripOpen text).
Proof. rewrite stripFence_stripOpen. apply replace_from_stripClose. Qed.

(** C4 (as stated) fails: an untagged opening fence stays in the text,
    and so do a fence with white space in front of the opening marker and
    a closing marker followed by a newline. *)
Lemma stripFence_untagged_counterexample :
  stripFence (str "```" ++ nl ++ str "a,b" ++ nl ++ str "```")
    = str "```" ++ nl ++ str "a,b"
  /\ stripFence (str "```" ++ nl ++ str "a,b" ++ nl ++ str "```") <> str "a,b"
  /\ stripFence (str " ```csv" ++ nl ++ str "a,b" ++ nl ++ str "```" ++ nl)
    = str " ```csv" ++ nl ++ str "a,b" ++ nl ++ str "```" ++ nl.
Proof. repeat split. vm_compute. discriminate. Qed.

(** C3 (as amended): the csv-fenced example comes back without the
    fences and without the newline that preceded the closing fence. *)
Theorem stripFence_example :
  stripFence (str "```csv" ++ nl ++ str "a,b" ++ nl ++ str "1,2" ++ nl ++ str "```")
  = str "a,b" ++ nl ++ str "1,2".
Proof. reflexivity. Qed.

(** C3 (as stated) fails: the result has no trailing newline. *)
Lemma stripFence_example_counterexample :
  stripFence (str "```csv" ++ nl ++ str "a,b" ++ nl ++ str "1,2" ++ nl ++ str "```")
  <> str "a,b" ++ nl ++ str "1,2" ++ nl.
Proof. vm_compute. discriminate. Qed.

(** ** Splitting and joining *)

Lemma split_nonempty (sep : char) (s : jsstring) : split sep s <> [].
Proof.
  induction s as [|c s IH]; simpl; [discriminate|].
  destruct (c =? sep)%N; [discriminate|].
  destruct (split sep s); [contradiction | discriminate].
Qed.

Lemma split_pieces (sep : char) (s : jsstring) piece :
  In piece (split sep s) ->
  ~ In sep piece /\ forall c, In c piece -> In c s.
Proof.
  revert piece. induction s as [|c s IH]; simpl; intros piece Hin.
  - destruct Hin as [<-|[]]. split; [tauto | intros c []].
  - destruct (N.eqb_spec c sep) as [->|Hne].
    + destruct Hin as [<-|Hin]; [split; [tauto | intros c []]|].
      destruct (IH piece Hin). split; [assumption | intros; right; auto].
    + destruct (split sep s) as [|p ps] eqn:E; [now apply split_nonempty in E|].
      destruct Hin as [<-|Hin].
      * destruct (IH p (or_introl eq_refl)) as [Hs Hsub]. split.
        -- intros [H|H]; [now apply Hne | now apply Hs].
        -- intros c' [<-|H]; [now left | right; now apply Hsub].
      * destruct (IH piece (or_intror Hin)). split; [assumption | intros; right; auto].
Qed.

Lemma split_none (sep : char) (a : jsstring) :
  ~ In sep a -> split sep a = [a].
Proof.
  induction a as [|c a IH]; simpl; intros H; [reflexivity|].
  destruct (N.eqb_spec c sep) as [->|Hne]; [tauto|].
  rewrite IH by tauto. reflexivity.
Qed.

Lemma split_app_sep (sep : char) (a b : jsstring) :
  ~ In sep a -> split sep (a ++ sep :: b) = a :: split sep b.
Proof.
  induction a as [|c a IH]; simpl; intros H.
  - now rewrite N.eqb_refl.
  - destruct (N.eqb_spec c sep) as [->|Hne]; [tauto|].
    rewrite IH by tauto. reflexivity.
Qed.

Lemma join_cons_head (sep : jsstring) (c : char) y r :
  c :: join sep (y :: r) = join sep ((c :: y) :: r).
Proof. destruct r; reflexivity. Qed.

Lemma join_step (sep : jsstring) x y r :
  join sep (x :: y :: r) = x ++ sep ++ join sep (y :: r).
Proof. reflexivity. Qed.

(** Cells without a comma, joined with a comma and a space and split on
    the comma again: each cell but the first comes back with the space
    in front. *)
Lemma split_join_cells (x : jsstring) (rest : list jsstring) :
  Forall (fun cell => ~ In comma cell) (x :: rest) ->
  split comma (join (str ", ") (x :: rest)) = x :: map (cons space) rest.
Proof.
  revert x. induction rest as [|y r IH]; intros x H.
  - simpl. apply split_none. now inversion H.
  - rewrite join_step. inversion H as [|? ? Hx Hrest]; subst.
    change (str ", " ++ join (str ", ") (y :: r))
      with (comma :: space :: join (str ", ") (y :: r)).
    rewrite split_app_sep by assumption.
    rewrite join_cons_head, IH; [reflexivity|].
    inversion Hrest as [|? ? Hy Hr]; subst. constructor; [|assumption].
    intros [E|Hin]; [discriminate | contradiction].
Qed.

Lemma split_join_lines (l : jsstring) (ls : list jsstring) :
  Forall (fun line => ~ In newline line) (l :: ls) ->
  split newline (join nl (l :: ls)) = l :: ls.
Proof.
  revert l. induction ls as [|y r IH]; intros l H.
  - simpl. apply split_none. now inversion H.
  - rewrite join_step. inversion H as [|? ? Hl Hrest]; subst.
    change (nl ++ join nl (y :: r)) with (newline :: join nl (y :: r)).
    rewrite split_app_sep by assumption. now rewrite IH.
Qed.

Lemma join_chars (sep : jsstring) (arr : list jsstring) c :
  In c (join sep arr) -> In c sep \/ exists x, In x arr /\ In c x.
Proof.
  induction arr as [|x arr IH]; [intros []|].
  destruct arr as [|y r].
  - simpl. intros H. right. exists x. split; [now left | assumption].
  - rewrite join_step. intros H.
    apply in_app_or in H as [H|H]; [right; exists x; split; [now left|assumption]|].
    apply in_app_or in H as [H|H]; [now left|].
    destruct (IH H) as [|(z & Hz & Hc)]; [now left|].
    right. exists z. split; [now right | assumption].
Qed.

(** ** The cell clean-up removes code units and adds none *)

Lemma replace_from_chars m (n : nat) (s : jsstring) c :
  In c (replace_from m n s) -> In c s.
Proof.
  revert n. induction s as [|d s IH]; intros n; [intros []|].
  simpl. destruct n as [|n].
  - destruct (m false (d :: s)) as [[|k]|].
    + intros [H|H]; [now left | right; eauto].
    + intros H; right; eauto.
    + intros [H|H]; [now left | right; eauto].
  - intros H; right; eauto.
Qed.

Lemma replace_global_chars m (s : jsstring) c :
  In c (replace_global m s) -> In c s.
Proof.
  destruct s as [|d s]; [intros []|]. unfold replace_global.
  destruct (m true (d :: s)) as [[|k]|].
  - intros [H|H]; [now left | right; eapply replace_from_chars; eauto].
  - intros H; right; eapply replace_from_chars; eauto.
  - intros [H|H]; [now left | right; eapply replace_from_chars; eauto].
Qed.

Lemma cleanCell_chars (cell : jsstring) c :
  In c (cleanCell cell) -> In c cell.
Proof.
  unfold cleanCell, trim. intros H.
  apply replace_global_chars, dropWhileEnd_incl, dropWhile_incl in H.
  exact H.
Qed.

Lemma cleanCell_space (cell : jsstring) :
  cleanCell (space :: cell) = cleanCell cell.
Proof. reflexivity. Qed.

(** ** Parsed rows *)

Lemma parseLines_rows (csvText : jsstring) row :
  In row (parseLines csvText) ->
  row <> [] /\
  forall cell, In cell row -> ~ In comma cell /\ ~ In newline cell.
Proof.
  unfold parseLines. intros H.
  apply in_map_iff in H as (line & <- & Hline).
  apply split_pieces in Hline as [Hnl _]. split.
  - pose proof (split_nonempty comma line).
    destruct (split comma line); [contradiction | discriminate].
  - intros cell Hcell. apply in_map_iff in Hcell as (piece & <- & Hpiece).
    apply split_pieces in Hpiece as [Hc Hsub]. split; intros Hin.
    + apply Hc. now apply cleanCell_chars.
    + apply Hnl, Hsub. now apply cleanCell_chars.
Qed.

Lemma parseLines_nonempty (csvText : jsstring) : parseLines csvText <> [].
Proof.
  unfold parseLines. pose proof (split_nonempty newline csvText).
  destruct (split newline csvText); [contradiction | discriminate].
Qed.

Lemma gridOf_rows (csvText : jsstring) row :
  In row (gridOf csvText) -> In row (parseLines csvText).
Proof.
  unfold gridOf, headersOf, dataOf, slice.
  pose proof (parseLines_nonempty csvText).
  destruct (parseLines csvText) as [|h t]; [contradiction|].
  simpl. intros [<-|Hin]; [now left|].
  apply filter_In in Hin as [Hin _]. now right.
Qed.

Lemma filter_all {A} (f : A -> bool) (l : list A) :
  (forall x, In x l -> f x = true) -> filter f l = l.
Proof.
  induction l as [|x l IH]; intros H; simpl; [reflexivity|].
  rewrite (H x) by now left. f_equal. apply IH. intros; apply H; now right.
Qed.

(** A settled row, serialized and parsed again, is the row. *)
Lemma reparse_row (row : list jsstring) :
  row <> [] ->
  (forall cell, In cell row -> ~ In comma cell) ->
  forallb (fun cell => jsstring_eqb (cleanCell cell) cell) row = true ->
  map cleanCell (split comma (join (str ", ") row)) = row.
Proof.
  intros Hne Hcomma Hsettled.
  destruct row as [|x rest]; [contradiction|].
  rewrite split_join_cells by (apply Forall_forall; exact Hcomma).
  rewrite forallb_forall in Hsettled.
  assert (Hfix : forall cell, In cell (x :: rest) -> cleanCell cell = cell).
  { intros cell Hin. apply jsstring_eqb_eq. now apply Hsettled. }
  simpl map. rewrite (Hfix x) by now left. f_equal.
  rewrite map_map. rewrite <- (map_id rest) at 2.
  apply map_ext_in. intros cell Hin.
  rewrite cleanCell_space. apply Hfix. now right.
Qed.

Lemma reparse_table (rows : CSVData) :
  rows <> [] ->
  (forall row, In row rows ->
     row <> [] /\
     forall cell, In cell row -> ~ In comma cell /\ ~ In newline cell) ->
  forallb (forallb (fun cell => jsstring_eqb (cleanCell cell) cell)) rows = true ->
  parseLines (join nl (map (join (str ", ")) rows)) = rows.
Proof.
  intros Hne Hrows Hsettled. unfold parseLines.
  destruct rows as [|r rs]; [contradiction|].
  change (map (join (str ", ")) (r :: rs))
    with (join (str ", ") r :: map (join (str ", ")) rs).
  rewrite split_join_lines.
  - change (join (str ", ") r :: map (join (str ", ")) rs)
      with (map (join (str ", ")) (r :: rs)).
    rewrite map_map. rewrite <- (map_id (r :: rs)) at 2.
    apply map_ext_in. intros row Hin.
    destruct (Hrows row Hin) as [Hr Hcells].
    rewrite forallb_forall in Hsettled.
    apply reparse_row; [assumption | intros; now apply Hcells | now apply Hsettled].
  - change (join (str ", ") r :: map (join (str ", ")) rs)
      with (map (join (str ", ")) (r :: rs)).
    apply Forall_forall. intros line Hline.
    apply in_map_iff in Hline as (row & <- & Hin).
    intros Hc. apply join_chars in Hc as [Hc|(cell & Hcell & Hc)].
    + vm_compute in Hc. destruct Hc as [Hc|[Hc|[]]]; discriminate.
    + destruct (Hrows row Hin) as [_ Hcells].
      now apply (Hcells cell Hcell).
Qed.

Lemma first_column_nonblank_index (grid : CSVData) :
  existsb (nonEmptyAt 0) grid = true -> firstNonBlankColIndex grid = 0.
Proof.
  intros H. unfold firstNonBlankColIndex.
  destruct grid as [|row0 rows]; [reflexivity|].
  assert (E : existsb (cellNotEmpty 0) (row0 :: rows) = true).
  { apply existsb_exists in H as (row & Hin & Hrow).
    apply existsb_exists. exists row. split; [assumption|].
    unfold nonEmptyAt in Hrow. unfold cellNotEmpty.
    now destruct (nth_error row 0). }
  destruct (length row0); [reflexivity|].
  cbn [firstNonBlankFrom]. now rewrite E.
Qed.

Lemma slice_0_rows (rows : CSVData) : map (slice 0) rows = rows.
Proof. unfold slice. simpl. apply map_id. Qed.

(** C2 (as amended): for every text whose first column is not blank and
    whose normalized cells are all left unchanged by the cell clean-up,
    normalizing the serialization of the normalized table gives the
    normalized table again. *)
Theorem processCSV_reserialize_idempotent (csvText : jsstring) :
  existsb (nonEmptyAt 0) (gridOf csvText) = true ->
  cellsSettled (App.processCSV csvText) = true ->
  App.processCSV (App.serialize (App.processCSV csvText))
  = App.processCSV csvText.
Proof.
  intros Hcol Hsettled.
  pose proof (first_column_nonblank_index _ Hcol) as Hk.
  assert (Hout : App.processCSV csvText
                 = (headersOf (parseLines csvText), dataOf (parseLines csvText))).
  { rewrite processCSV_unfold. cbv zeta. rewrite Hk, slice_0_rows. reflexivity. }
  rewrite Hout in Hsettled |- *.
  set (headers := headersOf (parseLines csvText)) in *.
  set (data := dataOf (parseLines csvText)) in *.
  assert (Hparse : parseLines (App.serialize (headers, data)) = headers :: data).
  { unfold App.serialize, App.formatData. cbn [fst snd].
    change (join (str ", ") headers :: map (join (str ", ")) data)
      with (map (join (str ", ")) (headers :: data)).
    apply reparse_table; [discriminate | | exact Hsettled].
    intros row Hin. apply (parseLines_rows csvText). now apply gridOf_rows. }
  assert (Hdata : dataOf (headers :: data) = data).
  { unfold dataOf at 1. unfold slice. simpl skipn. apply filter_all.
    intros row. apply dataOf_rows. }
  rewrite processCSV_unfold. cbv zeta.
  unfold gridOf. rewrite Hparse, Hdata.
  change (headersOf (headers :: data)) with headers.
  change (headers :: data) with (gridOf csvText).
  rewrite Hk, slice_0_rows. reflexivity.
Qed.

Lemma processCSV_reserialize_idempotent_witness :
  existsb (nonEmptyAt 0) (gridOf (str "a, b" ++ nl ++ str "1,2")) = true /\
  App.processCSV (App.serialize (App.processCSV (str "a, b" ++ nl ++ str "1,2")))
  = App.processCSV (str "a, b" ++ nl ++ str "1,2").
Proof.
  split; [reflexivity|].
  apply (processCSV_reserialize_idempotent (str "a, b" ++ nl ++ str "1,2"));
    reflexivity.
Defined.

(** C2 (as stated) fails: the cell [" a"] in quotes has a non-blank first
    column; it normalizes to the cell [ a] with its leading space, and
    normalizing the serialization trims that space. *)
Lemma processCSV_reserialize_counterexample :
  let csvText := qt ++ str " a" ++ qt in
  existsb (nonEmptyAt 0) (gridOf csvText) = true
  /\ firstNonBlankColIndex (gridOf csvText) = 0
  /\ App.processCSV csvText = ([str " a"], [])
  /\ App.processCSV (App.serialize (App.processCSV csvText)) = ([str "a"], [])
  /\ App.processCSV (App.serialize (App.processCSV csvText))
     <> App.processCSV csvText.
Proof. cbv zeta. repeat split. vm_compute. discriminate. Qed.

(** ** The process action *)

Lemma length_eqb_0 {A} (l : list A) : l <> [] -> (length l =? 0) = false.
Proof. destruct l; [contradiction | reflexivity]. Qed.

Lemma runProvider_sends refusal complete (st : App.State) :
  App.selectedProvider st <> App.claude ->
  App.runProvider refusal complete st
  = (complete (App.buildRequest st), [App.buildRequest st]).
Proof.
  unfold App.runProvider. destruct (App.selectedProvider st);
    [reflexivity.. | intros H; now contradiction H].
Qed.

Lemma runProvider_claude refusal complete (st : App.State) :
  App.selectedProvider st = App.claude ->
  App.runProvider refusal complete st = (ThrewError refusal, []).
Proof. unfold App.runProvider. now intros ->. Qed.

(** Past the two guards the action sends what the provider's branch
    sends and ends with the processing flag off. *)
Lemma processWithAI_guards_passed refusal complete (st : App.State) :
  truthy (App.apiKey st) = true ->
  App.file1Data st <> [] ->
  App.file2Data st <> [] ->
  snd (App.processWithAI refusal complete st)
    = snd (App.runProvider refusal complete st)
  /\ App.isProcessing (fst (App.processWithAI refusal complete st)) = false.
Proof.
  intros Hkey H1 H2. unfold App.processWithAI.
  rewrite Hkey, (length_eqb_0 _ H1), (length_eqb_0 _ H2). simpl. tauto.
Qed.

(** C6: with a credential and both files loaded, a provider's branch
    that returns no text leaves the processed headers and rows as they
    were, clears the displayed result and leaves the error message
    empty. *)
Theorem processWithAI_empty_response refusal complete (st : App.State) :
  truthy (App.apiKey st) = true ->
  App.file1Data st <> [] ->
  App.file2Data st <> [] ->
  noText (fst (App.runProvider refusal complete st)) = true ->
  let st' := fst (App.processWithAI refusal complete st) in
  App.processedHeaders st' = App.processedHeaders st
  /\ App.processedData st' = App.processedData st
  /\ App.processedResult st' = None
  /\ App.error st' = []
  /\ App.isProcessing st' = false.
Proof.
  intros Hkey H1 H2 Hno. unfold App.processWithAI.
  rewrite Hkey, (length_eqb_0 _ H1), (length_eqb_0 _ H2). cbn [negb orb].
  unfold App.runProvider in *.
  destruct (App.selectedProvider st); cbn [fst snd] in *;
    try discriminate Hno;
    destruct (complete (App.buildRequest st)) as [[[|c r]|]| |];
    try discriminate Hno; simpl; repeat split.
Qed.

Lemma processWithAI_empty_response_witness :
  let st := sampleApp (str "key") in
  let st' := fst (App.processWithAI (str "refused")
                    (fun _ => Returned (Some [])) st) in
  truthy (App.apiKey st) = true
  /\ App.processedHeaders st' = [str "old"]
  /\ App.processedData st' = [[str "row"]]
  /\ App.processedResult st' = None
  /\ App.error st' = [].
Proof.
  cbv zeta. split; [reflexivity|].
  destruct (processWithAI_empty_response (str "refused")
              (fun _ => Returned (Some [])) (sampleApp (str "key")))
    as (Hh & Hd & Hr & He & _);
    [reflexivity | discriminate | discriminate | reflexivity |].
  repeat split; assumption.
Defined.

(** The single-provider variant behaves the same way on an empty
    response. *)
Lemma processWithOpenAI_empty_response complete (st : Part000.State) :
  truthy (Part000.apiKey st) = true ->
  Part000.file1Data st <> [] ->
  Part000.file2Data st <> [] ->
  noText (complete (Part000.buildRequest st)) = true ->
  let st' := fst (Part000.processWithOpenAI complete st) in
  Part000.processedHeaders st' = Part000.processedHeaders st
  /\ Part000.processedData st' = Part000.processedData st
  /\ Part000.processedResult st' = None
  /\ Part000.error st' = []
  /\ Part000.isProcessing st' = false.
Proof.
  intros Hkey H1 H2 Hno. unfold Part000.processWithOpenAI.
  rewrite Hkey, (length_eqb_0 _ H1), (length_eqb_0 _ H2). cbn [negb orb].
  destruct (complete (Part000.buildRequest st)) as [[[|c r]|]| |];
    try discriminate Hno; simpl; repeat split.
Qed.

(** C7: with no credential the action sets the message that asks for the
    provider's key, issues no request, and changes nothing else: tables,
    processed table, processing flag and displayed result are as before. *)
Theorem processWithAI_missing_credential refusal complete (st : App.State) :
  App.apiKey st = [] ->
  let msg := str "Please enter your "
             ++ App.toUpperCase (App.providerName (App.selectedProvider st))
             ++ str " API key first" in
  App.processWithAI refusal complete st = (App.setError msg st, [])
  /\ truthy (App.error (fst (App.processWithAI refusal complete st))) = true
  /\ snd (App.processWithAI refusal complete st) = []
  /\ App.file1Data (App.setError msg st) = App.file1Data st
  /\ App.file2Data (App.setError msg st) = App.file2Data st
  /\ App.headers1 (App.setError msg st) = App.headers1 st
  /\ App.headers2 (App.setError msg st) = App.headers2 st
  /\ App.processedHeaders (App.setError msg st) = App.processedHeaders st
  /\ App.processedData (App.setError msg st) = App.processedData st
  /\ App.isProcessing (App.setError msg st) = App.isProcessing st
  /\ App.processedResult (App.setError msg st) = App.processedResult st.
Proof.
  intros Hkey msg. unfold App.processWithAI. rewrite Hkey. cbn [truthy negb].
  fold msg. repeat split.
Qed.

Lemma processWithAI_missing_credential_witness :
  App.apiKey (sampleApp []) = [] /\
  App.processWithAI (str "refused") (fun _ => Returned (Some (str "x,y")))
    (sampleApp [])
  = (App.setError (str "Please enter your GEMINI API key first") (sampleApp []),
     []).
Proof.
  split; [reflexivity|].
  apply (processWithAI_missing_credential (str "refused")
           (fun _ => Returned (Some (str "x,y"))) (sampleApp [])).
  reflexivity.
Defined.

(** The single-provider variant: the same guard with its fixed message. *)
Lemma processWithOpenAI_missing_credential complete (st : Part000.State) :
  Part000.apiKey st = [] ->
  Part000.processWithOpenAI complete st
  = (Part000.setError (str "Please enter your OpenAI API key first") st, []).
Proof.
  intros Hkey. unfold Part000.processWithOpenAI. now rewrite Hkey.
Qed.

(** C8 (as amended): [getPrompt] of [src/App.tsx] writes each table as
    its header cells joined with a comma and a space, then each row's
    cells joined the same way, the lines joined with a newline, and puts
    the two texts, unchanged, into its fixed template; with a credential
    and both files loaded, under the provider openai, deepseek or gemini
    the action issues exactly one request and its prompt is that text;
    the single-provider variant issues one request too, whose content
    joins the cells with a bare comma inside the variant's own
    template. *)
Theorem processWithAI_prompt :
  (forall headers1 data1 headers2 data2,
     App.getPrompt headers1 data1 headers2 data2
     = (str "I want to compare these two spreadsheets side-by-side. " ++ nl ++
          str "  First collapse each spreadsheet into one column." ++ nl ++
          str "  Make an index from the row and cell data from First spreadsheet." ++ nl ++
          str "  Use the index to match rows and cells in Second spreadsheet." ++ nl ++
          str "  If there is no matching pair, use an empty cell." ++ nl ++
          str "  Double-check each row carefully. " ++ nl ++
          str "  Show the result as a **well-formed CSV** with exactly two columns. " ++ nl ++
          str "  Do not provide any commentary." ++ nl ++
          nl ++
          str "  First spreadsheet:" ++ nl ++
          str "  ")
       ++ join nl (join (str ", ") headers1 :: map (join (str ", ")) data1)
       ++ (nl ++ nl ++ str "  Second spreadsheet:" ++ nl ++ str "  ")
       ++ join nl (join (str ", ") headers2 :: map (join (str ", ")) data2))
  /\ (forall refusal complete (st : App.State),
        truthy (App.apiKey st) = true ->
        App.file1Data st <> [] ->
        App.file2Data st <> [] ->
        App.selectedProvider st <> App.claude ->
        snd (App.processWithAI refusal complete st)
        = [App.mkRequest (App.selectedProvider st) (App.selectedModel st)
             (App.apiKey st)
             (App.getPrompt (App.headers1 st) (App.file1Data st)
                            (App.headers2 st) (App.file2Data st))])
  /\ (forall complete (st : Part000.State),
        truthy (Part000.apiKey st) = true ->
        Part000.file1Data st <> [] ->
        Part000.file2Data st <> [] ->
        snd (Part000.processWithOpenAI complete st)
        = [Part000.mkRequest (str "o3-mini") (Part000.apiKey st)
             ((str "I want to compare these two spreadsheets side-by-side. " ++ nl ++
             str "First collapse each spreadsheet into one column." ++ nl ++
             str "Double-check that each spreadsheet is one column only." ++ nl ++
             str "Now start matching rows." ++ nl ++
             str "If a row exists in one spreadsheet but not the other, use an empty cell to keep alignment. " ++ nl ++
             str "Double-check each row carefully. " ++ nl ++
             str "Show the result as a CSV. " ++ nl ++
             str "Do not provide any commentary." ++ nl ++
             nl ++
             str "First spreadsheet:" ++ nl)
              ++ join nl (map (join (str ","))
                              (Part000.headers1 st :: Part000.file1Data st))
              ++ (nl ++ nl ++ str "Second spreadsheet:" ++ nl)
              ++ join nl (map (join (str ","))
                              (Part000.headers2 st :: Part000.file2Data st)))]).
Proof.
  split; [reflexivity|]. split.
  - intros refusal complete st Hkey H1 H2 Hp.
    destruct (processWithAI_guards_passed refusal complete st Hkey H1 H2)
      as [Hreq _].
    rewrite Hreq, runProvider_sends by assumption. reflexivity.
  - intros complete st Hkey H1 H2. unfold Part000.processWithOpenAI.
    rewrite Hkey, (length_eqb_0 _ H1), (length_eqb_0 _ H2). reflexivity.
Qed.

Lemma processWithAI_prompt_witness :
  truthy (App.apiKey (sampleApp (str "key"))) = true /\
  App.selectedProvider (sampleApp (str "key")) <> App.claude /\
  snd (App.processWithAI (str "refused") (fun _ => ThrewOther)
         (sampleApp (str "key")))
  = [App.mkRequest App.gemini (str "gemini-1.5-pro") (str "key")
       (App.getPrompt [str "a"; str "b"] [[str "1"; str "2"]]
                      [str "a"; str "c"] [[str "1"; str "3"]])].
Proof.
  split; [reflexivity|]. split; [discriminate|].
  destruct processWithAI_prompt as (_ & Hsend & _).
  apply (Hsend (str "refused") (fun _ => ThrewOther) (sampleApp (str "key")));
    [reflexivity | discriminate | discriminate | discriminate].
Defined.

(** C8 (as stated) fails on the single-provider variant, one of the two
    process actions: its one request joins the cells with a bare comma,
    so the text that joins them with a comma and a space is not in it.
    It fails on [src/App.tsx] too under the provider claude, where the
    client constructor throws and no request is issued. *)
Lemma processWithAI_prompt_counterexample :
  (exists request,
     snd (Part000.processWithOpenAI (fun _ => ThrewOther)
            (samplePart000 (str "key"))) = [request]
     /\ contains (App.formatData [str "a"; str "b"] [[str "1"; str "2"]])
                 (Part000.reqContent request) = false
     /\ contains (str "a,b" ++ nl ++ str "1,2")
                 (Part000.reqContent request) = true)
  /\ truthy (App.apiKey (sampleClaude (str "key"))) = true
  /\ App.file1Data (sampleClaude (str "key")) = [[str "1"; str "2"]]
  /\ App.file2Data (sampleClaude (str "key")) = [[str "1"; str "3"]]
  /\ snd (App.processWithAI (str "refused")
            (fun _ => Returned (Some (str "a,b")))
            (sampleClaude (str "key"))) = [].
Proof.
  split; [|repeat split].
  eexists. split; [reflexivity|]. split; vm_compute; reflexivity.
Qed.

(** The single-provider variant sends one request too, but joins the
    cells with a bare comma and uses its own template. *)
Lemma processWithOpenAI_prompt complete (st : Part000.State) :
  truthy (Part000.apiKey st) = true ->
  Part000.file1Data st <> [] ->
  Part000.file2Data st <> [] ->
  snd (Part000.processWithOpenAI complete st) = [Part000.buildRequest st]
  /\ Part000.reqContent (Part000.buildRequest st)
     = Part000.template_head
       ++ join nl (map (join (str ",")) (Part000.headers1 st :: Part000.file1Data st))
       ++ Part000.template_mid
       ++ join nl (map (join (str ",")) (Part000.headers2 st :: Part000.file2Data st)).
Proof.
  intros Hkey H1 H2. unfold Part000.processWithOpenAI.
  rewrite Hkey, (length_eqb_0 _ H1), (length_eqb_0 _ H2). simpl. tauto.
Qed.

(** * Further properties of the code *)

(** ** More on lists *)

Section MoreListFacts.
Context {A : Type} (p : A -> bool).

Lemma dropWhile_nil_of_all (l : list A) :
  forallb p l = true -> dropWhile p l = [].
Proof.
  induction l as [|x l IH]; simpl; [reflexivity|].
  destruct (p x); simpl; [exact IH | discriminate].
Qed.

Lemma dropWhile_app_some (l w : list A) :
  forallb p l = false -> dropWhile p (l ++ w) = dropWhile p l ++ w.
Proof.
  induction l as [|x l IH]; simpl; [discriminate|].
  destruct (p x); simpl; [exact IH | reflexivity].
Qed.

Lemma dropWhileEnd_drop_all (l w : list A) :
  forallb p w = true -> dropWhileEnd p (l ++ w) = dropWhileEnd p l.
Proof.
  intros H. unfold dropWhileEnd. rewrite rev_app_distr.
  rewrite dropWhile_app_all; [reflexivity|].
  rewrite forallb_forall in *. intros x Hx. apply H. now apply in_rev.
Qed.

Lemma dropWhileEnd_snoc_keep (b : list A) x :
  p x = false -> dropWhileEnd p (b ++ [x]) = b ++ [x].
Proof.
  intros H. unfold dropWhileEnd. rewrite rev_app_distr. simpl.
  rewrite H. simpl. now rewrite rev_involutive.
Qed.

Lemma dropWhile_length (l : list A) : length (dropWhile p l) <= length l.
Proof.
  induction l as [|x l IH]; simpl; [lia|]. destruct (p x); simpl; lia.
Qed.

Lemma dropWhileEnd_length (l : list A) : length (dropWhileEnd p l) <= length l.
Proof.
  unfold dropWhileEnd. rewrite length_rev.
  etransitivity; [apply dropWhile_length|]. now rewrite length_rev.
Qed.

Lemma dropWhile_full (l : list A) :
  length (dropWhile p l) = length l -> dropWhile p l = l.
Proof.
  destruct l as [|x l]; simpl; [reflexivity|].
  destruct (p x); [|reflexivity].
  intros H. pose proof (dropWhile_length l). lia.
Qed.

Lemma dropWhileEnd_full (l : list A) :
  length (dropWhileEnd p l) = length l -> dropWhileEnd p l = l.
Proof.
  unfold dropWhileEnd. rewrite length_rev, <- (length_rev l). intros H.
  rewrite (dropWhile_full _ H). apply rev_involutive.
Qed.

End MoreListFacts.

Lemma snoc_cases {A} (l : list A) : l = [] \/ exists b x, l = b ++ [x].
Proof.
  destruct l as [|a l]; [now left|]. right.
  destruct (exists_last (l := a :: l)) as (b & x & H); [discriminate|]. eauto.
Qed.

(** ** The cell clean-up *)

Lemma trim_all_blank (w : jsstring) : forallb isWhiteSpace w = true -> trim w = [].
Proof. intros H. unfold trim. now rewrite dropWhile_nil_of_all. Qed.

Lemma trim_ignores_blank_around (w1 cell w2 : jsstring) :
  forallb isWhiteSpace w1 = true ->
  forallb isWhiteSpace w2 = true ->
  trim (w1 ++ cell ++ w2) = trim cell.
Proof.
  intros H1 H2. unfold trim. rewrite dropWhile_app_all by assumption.
  destruct (forallb isWhiteSpace cell) eqn:E.
  - rewrite dropWhile_app_all by assumption.
    now rewrite !dropWhile_nil_of_all.
  - rewrite dropWhile_app_some by assumption.
    now apply dropWhileEnd_drop_all.
Qed.

Lemma trim_fixed (c : char) (rest : jsstring) :
  isWhiteSpace c = false ->
  isWhiteSpace (last (c :: rest) c) = false ->
  trim (c :: rest) = c :: rest.
Proof.
  intros Hc Hlast. unfold trim. cbn [dropWhile]. rewrite Hc.
  assert (E : c :: rest = removelast (c :: rest) ++ [last (c :: rest) c])
    by (apply app_removelast_last; discriminate).
  set (l := c :: rest) in *. rewrite E.
  now apply dropWhileEnd_snoc_keep.
Qed.

Lemma trim_length (s : jsstring) : length (trim s) <= length s.
Proof.
  unfold trim. etransitivity; [apply dropWhileEnd_length | apply dropWhile_length].
Qed.

Lemma trim_full (s : jsstring) : length (trim s) = length s -> trim s = s.
Proof.
  unfold trim. intros H.
  pose proof (dropWhileEnd_length isWhiteSpace (dropWhile isWhiteSpace s)).
  pose proof (dropWhile_length isWhiteSpace s).
  assert (Hd : dropWhile isWhiteSpace s = s) by (apply dropWhile_full; lia).
  rewrite Hd in *. now apply dropWhileEnd_full.
Qed.

Lemma replace_from_quote_snoc (b : jsstring) (x : char) :
  replace_from quote_re 0 (b ++ [x])
  = if (x =? dquote)%N then b else b ++ [x].
Proof.
  induction b as [|c b IH].
  - simpl. now destruct (x =? dquote)%N.
  - simpl app. cbn [replace_from].
    replace (quote_re false (c :: b ++ [x])) with (@None nat).
    + rewrite IH. now destruct (x =? dquote)%N.
    + unfold quote_re. destruct (c =? dquote)%N; [|reflexivity].
      now destruct b.
Qed.

Lemma replace_global_quote_cons (c : char) (rest : jsstring) :
  replace_global quote_re (c :: rest)
  = if (c =? dquote)%N then replace_from quote_re 0 rest
    else c :: replace_from quote_re 0 rest.
Proof. unfold replace_global, quote_re. now destruct (c =? dquote)%N. Qed.

Lemma replace_from_length m (n : nat) (s : jsstring) :
  length (replace_from m n s) <= length s.
Proof.
  revert n. induction s as [|c s IH]; intros n; simpl; [lia|].
  destruct n as [|n].
  - destruct (m false (c :: s)) as [[|k]|]; simpl;
      try (specialize (IH 0); lia). specialize (IH k). lia.
  - specialize (IH n). lia.
Qed.

Lemma replace_global_length m (s : jsstring) :
  length (replace_global m s) <= length s.
Proof.
  destruct s as [|c s]; simpl; [lia|].
  destruct (m true (c :: s)) as [[|k]|]; simpl;
    try (pose proof (replace_from_length m 0 s); lia).
  pose proof (replace_from_length m k s). lia.
Qed.

Lemma plainEdge_inv (c : char) :
  plainEdge c = true -> isWhiteSpace c = false /\ (c =? dquote)%N = false.
Proof.
  unfold plainEdge. intros H. apply andb_prop in H as [H1 H2].
  split; [now destruct (isWhiteSpace c) | now destruct (c =? dquote)%N].
Qed.

(** A cell wrapped in double quotes, with any white space around the
    quotes, is cleaned to exactly what stands between the quotes. *)
Theorem cleanCell_quoted (w1 body w2 : jsstring) :
  forallb isWhiteSpace w1 = true ->
  forallb isWhiteSpace w2 = true ->
  cleanCell (w1 ++ (qt ++ body ++ qt) ++ w2) = body.
Proof.
  intros H1 H2. unfold cleanCell.
  rewrite trim_ignores_blank_around by assumption.
  change (qt ++ body ++ qt) with (dquote :: body ++ [dquote]).
  rewrite trim_fixed.
  - rewrite replace_global_quote_cons, replace_from_quote_snoc. reflexivity.
  - reflexivity.
  - change (dquote :: body ++ [dquote]) with ((dquote :: body) ++ [dquote]).
    now rewrite last_last.
Qed.

Lemma cleanCell_quoted_witness :
  cleanCell (str "  " ++ (qt ++ str " a,b " ++ qt) ++ str " ") = str " a,b ".
Proof.
  apply (cleanCell_quoted (str "  ") (str " a,b ") (str " ")); reflexivity.
Defined.

Lemma cleanCell_edgeFree_fixed (cell : jsstring) :
  edgeFree cell = true -> cleanCell cell = cell.
Proof.
  destruct cell as [|c rest]; [reflexivity|].
  unfold edgeFree. intros H. apply andb_prop in H as [Hc Hl].
  apply plainEdge_inv in Hc as [Hws Hq], Hl as [Hlws Hlq].
  unfold cleanCell. rewrite trim_fixed by assumption.
  rewrite replace_global_quote_cons, Hq. f_equal.
  destruct (snoc_cases rest) as [->|(b & x & ->)]; [reflexivity|].
  rewrite replace_from_quote_snoc.
  change (c :: b ++ [x]) with ((c :: b) ++ [x]) in Hlq.
  rewrite last_last in Hlq. now rewrite Hlq.
Qed.

(** A cell that neither begins nor ends with white space or a double
    quote comes out of the clean-up as it is, whatever white space
    surrounded it. *)
Theorem cleanCell_plain (w1 body w2 : jsstring) :
  edgeFree body = true ->
  forallb isWhiteSpace w1 = true ->
  forallb isWhiteSpace w2 = true ->
  cleanCell (w1 ++ body ++ w2) = body.
Proof.
  intros He H1 H2.
  rewrite <- (cleanCell_edgeFree_fixed body He) at 2.
  unfold cleanCell. now rewrite trim_ignores_blank_around.
Qed.

Lemma cleanCell_plain_witness :
  cleanCell (str " New York " ++ [carriageReturn]) = str "New York".
Proof.
  apply (cleanCell_plain (str " ") (str "New York") (str " " ++ [carriageReturn]));
    reflexivity.
Defined.

(** The cells that the clean-up leaves unchanged are exactly the cells
    that neither begin nor end with white space or a double quote. *)
Theorem cleanCell_fixed_iff_edgeFree (cell : jsstring) :
  cleanCell cell = cell <-> edgeFree cell = true.
Proof.
  split; [|apply cleanCell_edgeFree_fixed].
  intros Hfix. destruct cell as [|c rest]; [reflexivity|].
  assert (Htrim : trim (c :: rest) = c :: rest).
  { apply trim_full. pose proof (trim_length (c :: rest)).
    pose proof (replace_global_length quote_re (trim (c :: rest))).
    unfold cleanCell in Hfix. rewrite Hfix in *. lia. }
  unfold cleanCell in Hfix. rewrite Htrim in Hfix.
  assert (Hws : isWhiteSpace c = false).
  { unfold trim in Htrim. cbn [dropWhile] in Htrim.
    destruct (isWhiteSpace c); [|reflexivity]. exfalso.
    apply (f_equal (@length char)) in Htrim.
    pose proof (dropWhileEnd_length isWhiteSpace (dropWhile isWhiteSpace rest)).
    pose proof (dropWhile_length isWhiteSpace rest). simpl in Htrim. lia. }
  assert (Hlws : isWhiteSpace (last (c :: rest) c) = false).
  { unfold trim in Htrim. cbn [dropWhile] in Htrim. rewrite Hws in Htrim.
    apply (dropWhileEnd_last isWhiteSpace (c :: rest) (removelast (c :: rest))).
    rewrite Htrim. apply app_removelast_last. discriminate. }
  rewrite replace_global_quote_cons in Hfix.
  destruct (c =? dquote)%N eqn:Hq.
  { exfalso. apply (f_equal (@length char)) in Hfix.
    pose proof (replace_from_length quote_re 0 rest). simpl in Hfix. lia. }
  injection Hfix as Hrest.
  unfold edgeFree, plainEdge. rewrite Hws, Hq, Hlws. cbn [negb andb].
  destruct (snoc_cases rest) as [->|(b & x & ->)]; [simpl; now rewrite Hq|].
  change (c :: b ++ [x]) with ((c :: b) ++ [x]). rewrite last_last.
  rewrite replace_from_quote_snoc in Hrest.
  destruct (x =? dquote)%N; [|reflexivity].
  exfalso. apply (f_equal (@length char)) in Hrest.
  rewrite length_app in Hrest. simpl in Hrest. lia.
Qed.

(** ** More on the normalizer *)

Lemma in_skipn_in {A} (k : nat) (l : list A) x : In x (skipn k l) -> In x l.
Proof.
  revert l. induction k as [|k IH]; intros l; simpl; [tauto|].
  destruct l; [tauto|]. intros H. right. now apply IH.
Qed.

Lemma tableCells_processCSV (csvText : jsstring) :
  tableCells (App.processCSV csvText)
  = map (slice (firstNonBlankColIndex (gridOf csvText))) (gridOf csvText).
Proof. reflexivity. Qed.

(** No cell that [processCSV] returns, header or data, contains a comma
    or a newline. *)
Theorem processCSV_cells_no_separator (csvText : jsstring) row cell :
  In row (tableCells (App.processCSV csvText)) ->
  In cell row ->
  ~ In comma cell /\ ~ In newline cell.
Proof.
  rewrite tableCells_processCSV. intros Hrow Hcell.
  apply in_map_iff in Hrow as (row0 & <- & Hrow0).
  apply in_skipn_in in Hcell.
  apply gridOf_rows in Hrow0.
  now apply (parseLines_rows csvText row0).
Qed.

Lemma processCSV_cells_no_separator_witness :
  ~ In comma (str "x y") /\ ~ In newline (str "x y").
Proof.
  apply (processCSV_cells_no_separator
           (str "h" ++ nl ++ qt ++ str "1,x y" ++ qt)
           [str "1"; str "x y"] (str "x y"));
    vm_compute; tauto.
Defined.

(** The result depends on the text through the header row and the kept
    rows only. *)
Lemma processCSV_same_parse (a b : jsstring) :
  headersOf (parseLines a) = headersOf (parseLines b) ->
  dataOf (parseLines a) = dataOf (parseLines b) ->
  App.processCSV a = App.processCSV b.
Proof.
  intros Hh Hd. rewrite !processCSV_unfold. cbv zeta.
  unfold gridOf. now rewrite Hh, Hd.
Qed.

Lemma split_snoc_sep (sep : char) (s : jsstring) :
  split sep (s ++ [sep]) = split sep s ++ [[]].
Proof.
  induction s as [|c s IH]; simpl.
  - now rewrite N.eqb_refl.
  - rewrite IH. destruct (c =? sep)%N; [reflexivity|].
    destruct (split sep s) as [|p ps] eqn:E; [now apply split_nonempty in E|].
    reflexivity.
Qed.

(** A newline at the end of the text changes nothing. *)
Theorem processCSV_trailing_newline (csvText : jsstring) :
  App.processCSV (csvText ++ nl) = App.processCSV csvText.
Proof.
  assert (Hparse : parseLines (csvText ++ nl) = parseLines csvText ++ [[[]]]).
  { unfold parseLines, nl. rewrite split_snoc_sep, map_app. reflexivity. }
  pose proof (parseLines_nonempty csvText) as Hne.
  apply processCSV_same_parse; rewrite Hparse;
    destruct (parseLines csvText) as [|h t]; try contradiction.
  - reflexivity.
  - unfold dataOf, slice. simpl skipn. rewrite filter_app. simpl.
    apply app_nil_r.
Qed.

Lemma split_snoc_other (sep c : char) (l : jsstring) :
  c <> sep ->
  split sep (l ++ [c]) = mapLast (fun piece => piece ++ [c]) (split sep l).
Proof.
  intros Hc. induction l as [|d l IH]; simpl.
  - destruct (N.eqb_spec c sep); [contradiction | reflexivity].
  - rewrite IH.
    destruct (split sep l) as [|p ps] eqn:E; [now apply split_nonempty in E|].
    destruct (d =? sep)%N; [reflexivity|].
    destruct ps; reflexivity.
Qed.

Lemma split_crlf (text : jsstring) :
  split newline (crlf text)
  = mapInit (fun line => line ++ [carriageReturn]) (split newline text).
Proof.
  induction text as [|c text IH]; [reflexivity|].
  unfold crlf in *. cbn [flat_map].
  destruct (split newline text) as [|p ps] eqn:E; [now apply split_nonempty in E|].
  destruct (N.eqb_spec c newline) as [->|Hne].
  - cbn [app split]. rewrite IH.
    change (carriageReturn =? newline)%N with false.
    rewrite N.eqb_refl, E. reflexivity.
  - cbn [app split]. rewrite IH, E.
    destruct (N.eqb_spec c newline); [contradiction|].
    destruct ps; reflexivity.
Qed.

Lemma map_mapInit {A B} (g : A -> B) (f : A -> A) (l : list A) :
  (forall a, g (f a) = g a) -> map g (mapInit f l) = map g l.
Proof.
  intros H. induction l as [|x l IH]; [reflexivity|].
  destruct l as [|y l]; [reflexivity|].
  change (mapInit f (x :: y :: l)) with (f x :: mapInit f (y :: l)).
  cbn [map] in *. now rewrite H, IH.
Qed.

Lemma map_mapLast {A B} (g : A -> B) (f : A -> A) (l : list A) :
  (forall a, g (f a) = g a) -> map g (mapLast f l) = map g l.
Proof.
  intros H. induction l as [|x l IH]; [reflexivity|].
  destruct l as [|y l]; [simpl; now rewrite H|].
  change (mapLast f (x :: y :: l)) with (x :: mapLast f (y :: l)).
  cbn [map] in *. now rewrite IH.
Qed.

Lemma cleanCell_ignores_blank_around (w1 cell w2 : jsstring) :
  forallb isWhiteSpace w1 = true ->
  forallb isWhiteSpace w2 = true ->
  cleanCell (w1 ++ cell ++ w2) = cleanCell cell.
Proof.
  intros H1 H2. unfold cleanCell. now rewrite trim_ignores_blank_around.
Qed.

Lemma parseLines_crlf (text : jsstring) : parseLines (crlf text) = parseLines text.
Proof.
  unfold parseLines. rewrite split_crlf. apply map_mapInit. intros line.
  rewrite split_snoc_other by discriminate.
  apply map_mapLast. intros piece.
  apply (cleanCell_ignores_blank_around [] piece [carriageReturn]); reflexivity.
Qed.

(** A text with carriage return, newline line ends normalizes to the
    same table as the text with bare newlines. *)
Theorem processCSV_crlf (csvText : jsstring) :
  App.processCSV (crlf csvText) = App.processCSV csvText.
Proof. apply processCSV_same_parse; now rewrite parseLines_crlf. Qed.

(** When the header row and the kept rows all have the same number of
    cells, every returned row is as long as the returned header row. *)
Theorem processCSV_rectangular (csvText : jsstring) :
  (forall row, In row (gridOf csvText) ->
     length row = length (headersOf (parseLines csvText))) ->
  forall row, In row (snd (App.processCSV csvText)) ->
    length row = length (fst (App.processCSV csvText)).
Proof.
  intros Hrect row. rewrite processCSV_unfold. cbv zeta. cbn [fst snd].
  intros Hin. apply in_map_iff in Hin as (row0 & <- & Hin0).
  unfold slice. rewrite !length_skipn. f_equal.
  apply Hrect. now right.
Qed.

Lemma processCSV_rectangular_witness :
  length [str "1"; str "2"] = length (fst (App.processCSV (str ",a,b" ++ nl ++ str ",1,2"))).
Proof.
  apply (processCSV_rectangular (str ",a,b" ++ nl ++ str ",1,2")).
  - intros row Hin. vm_compute in Hin.
    destruct Hin as [<-|[<-|[]]]; reflexivity.
  - vm_compute. tauto.
Defined.

Lemma nonEmptyAt_slice (k : nat) (row : list jsstring) :
  nonEmptyAt 0 (slice k row) = nonEmptyAt k row.
Proof.
  unfold nonEmptyAt, slice. now rewrite nth_error_skipn, Nat.add_0_r.
Qed.

Lemma cellNotEmpty_slice (k : nat) (row : list jsstring) :
  cellNotEmpty 0 (slice k row) = cellNotEmpty k row.
Proof.
  unfold cellNotEmpty, slice. now rewrite nth_error_skipn, Nat.add_0_r.
Qed.

Lemma existsb_map_as {A B} (f : B -> bool) (g : A -> B) (h : A -> bool)
    (l : list A) :
  (forall x, f (g x) = h x) -> existsb f (map g l) = existsb h l.
Proof.
  intros H. induction l as [|x l IH]; simpl; [reflexivity|].
  now rewrite H, IH.
Qed.

Lemma first_column_of_result (csvText : jsstring) :
  fst (App.processCSV csvText) <> [] ->
  existsb (nonEmptyAt 0) (tableCells (App.processCSV csvText)) = true.
Proof.
  rewrite tableCells_processCSV, processCSV_unfold. cbv zeta. cbn [fst].
  intros Hne.
  set (k := firstNonBlankColIndex (gridOf csvText)) in *.
  assert (Hk : k < length (headersOf (parseLines csvText))).
  { destruct (le_lt_dec (length (headersOf (parseLines csvText))) k) as [Hle|];
      [|assumption].
    exfalso. apply Hne. unfold slice. now apply skipn_all2. }
  rewrite (existsb_map_as _ _ (nonEmptyAt k)) by (intros; apply nonEmptyAt_slice).
  apply (stop_column_nonEmpty (headersOf (parseLines csvText))
           (dataOf (parseLines csvText)));
    [intros row; apply dataOf_rows | exact Hk].
Qed.

(** When the returned header row is not empty, the first column of the
    returned table has a non-empty cell: no blank column is left in
    front. *)
Theorem processCSV_no_leading_blank (csvText : jsstring) :
  fst (App.processCSV csvText) <> [] ->
  existsb (nonEmptyAt 0) (tableCells (App.processCSV csvText)) = true.
Proof. apply first_column_of_result. Qed.

Lemma processCSV_no_leading_blank_witness :
  existsb (nonEmptyAt 0)
    (tableCells (App.processCSV (str ",," ++ nl ++ str ",x,"))) = true.
Proof.
  apply (processCSV_no_leading_blank (str ",," ++ nl ++ str ",x,")).
  vm_compute. discriminate.
Defined.

(** Cutting off the leading blank columns twice is the same as cutting
    them off once, for every array of rows. *)
Theorem removeLeadingBlankColumns_idempotent (data : CSVData) :
  removeLeadingBlankColumns (removeLeadingBlankColumns data)
  = removeLeadingBlankColumns data.
Proof.
  destruct data as [|h d]; [reflexivity|].
  unfold removeLeadingBlankColumns at 2.
  set (k := firstNonBlankColIndex (h :: d)).
  cbn [map]. unfold removeLeadingBlankColumns.
  assert (Hk : firstNonBlankColIndex (slice k h :: map (slice k) d) = 0).
  { unfold firstNonBlankColIndex at 1.
    destruct (length (slice k h)) as [|n] eqn:El; [reflexivity|].
    cbn [firstNonBlankFrom].
    replace (existsb (cellNotEmpty 0) (slice k h :: map (slice k) d)) with true;
      [reflexivity|].
    symmetry. change (slice k h :: map (slice k) d) with (map (slice k) (h :: d)).
    rewrite (existsb_map_as _ _ (cellNotEmpty k))
      by (intros; apply cellNotEmpty_slice).
    destruct (firstNonBlankColIndex_spec h d) as (_ & _ & Hstop).
    apply Hstop. fold k. unfold slice in El. rewrite length_skipn in El. lia. }
  rewrite Hk. change (map (slice 0) ?l) with (map (fun r : list jsstring => r) l).
  now rewrite map_id.
Qed.

(** ** Serializing a table and parsing it again *)

Lemma result_rows_truthy (csvText : jsstring) row :
  In row (snd (App.processCSV csvText)) -> existsb truthy row = true.
Proof.
  rewrite processCSV_unfold. cbv zeta. cbn [snd]. intros Hin.
  apply in_map_iff in Hin as (row0 & <- & Hin0).
  apply slice_keeps_nonempty; [now right | now apply dataOf_rows in Hin0].
Qed.

Lemma result_rows_wellformed (csvText : jsstring) row :
  fst (App.processCSV csvText) <> [] ->
  In row (tableCells (App.processCSV csvText)) ->
  row <> [] /\
  forall cell, In cell row -> ~ In comma cell /\ ~ In newline cell.
Proof.
  intros Hne Hin. split.
  - destruct Hin as [<-|Hin]; [exact Hne|].
    apply result_rows_truthy in Hin. intros ->. discriminate.
  - intros cell Hcell.
    rewrite tableCells_processCSV in Hin.
    apply in_map_iff in Hin as (row0 & <- & Hrow0).
    apply in_skipn_in in Hcell. apply gridOf_rows in Hrow0.
    now apply (parseLines_rows csvText row0).
Qed.

(** A text that parses to a header row and non-blank rows with a
    non-blank first column normalizes to exactly that table. *)
Lemma processCSV_of_clean_grid (text : jsstring) headers (data : CSVData) :
  parseLines text = headers :: data ->
  (forall row, In row data -> existsb truthy row = true) ->
  existsb (nonEmptyAt 0) (headers :: data) = true ->
  App.processCSV text = (headers, data).
Proof.
  intros Hparse Hrows Hcol.
  assert (Hdata : dataOf (parseLines text) = data).
  { rewrite Hparse. unfold dataOf, slice. simpl skipn. now apply filter_all. }
  rewrite processCSV_unfold. cbv zeta. unfold gridOf.
  rewrite Hdata, Hparse. change (headersOf (headers :: data)) with headers.
  rewrite (first_column_nonblank_index _ Hcol), slice_0_rows. reflexivity.
Qed.

Lemma split_join_cells_bare (x : jsstring) (rest : list jsstring) :
  Forall (fun cell => ~ In comma cell) (x :: rest) ->
  split comma (join (str ",") (x :: rest)) = x :: rest.
Proof.
  revert x. induction rest as [|y r IH]; intros x H.
  - simpl. apply split_none. now inversion H.
  - rewrite join_step. inversion H as [|? ? Hx Hrest]; subst.
    change (str "," ++ join (str ",") (y :: r))
      with (comma :: join (str ",") (y :: r)).
    rewrite split_app_sep by assumption. now rewrite IH.
Qed.

Lemma reparse_row_bare (row : list jsstring) :
  row <> [] ->
  (forall cell, In cell row -> ~ In comma cell) ->
  forallb (fun cell => jsstring_eqb (cleanCell cell) cell) row = true ->
  map cleanCell (split comma (join (str ",") row)) = row.
Proof.
  intros Hne Hcomma Hsettled.
  destruct row as [|x rest]; [contradiction|].
  rewrite split_join_cells_bare by (apply Forall_forall; exact Hcomma).
  rewrite forallb_forall in Hsettled.
  rewrite <- (map_id (x :: rest)) at 2.
  apply map_ext_in. intros cell Hin. apply jsstring_eqb_eq. now apply Hsettled.
Qed.

Lemma reparse_table_bare (rows : CSVData) :
  rows <> [] ->
  (forall row, In row rows ->
     row <> [] /\
     forall cell, In cell row -> ~ In comma cell /\ ~ In newline cell) ->
  forallb (forallb (fun cell => jsstring_eqb (cleanCell cell) cell)) rows = true ->
  parseLines (join nl (map (join (str ",")) rows)) = rows.
Proof.
  intros Hne Hrows Hsettled. unfold parseLines.
  destruct rows as [|r rs]; [contradiction|].
  change (map (join (str ",")) (r :: rs))
    with (join (str ",") r :: map (join (str ",")) rs).
  rewrite split_join_lines.
  - change (join (str ",") r :: map (join (str ",")) rs)
      with (map (join (str ",")) (r :: rs)).
    rewrite map_map. rewrite <- (map_id (r :: rs)) at 2.
    apply map_ext_in. intros row Hin.
    destruct (Hrows row Hin) as [Hr Hcells].
    rewrite forallb_forall in Hsettled.
    apply reparse_row_bare;
      [assumption | intros; now apply Hcells | now apply Hsettled].
  - change (join (str ",") r :: map (join (str ",")) rs)
      with (map (join (str ",")) (r :: rs)).
    apply Forall_forall. intros line Hline.
    apply in_map_iff in Hline as (row & <- & Hin).
    intros Hc. apply join_chars in Hc as [Hc|(cell & Hcell & Hc)].
    + vm_compute in Hc. destruct Hc as [Hc|[]]; discriminate.
    + destruct (Hrows row Hin) as [_ Hcells].
      now apply (Hcells cell Hcell).
Qed.

Lemma part000_processCSV_same (csvText : jsstring) :
  Part000.processCSV csvText = App.processCSV csvText.
Proof.
  unfold App.processCSV, Part000.processCSV,
    removeLeadingBlankColumns, Part000.removeLeadingBlankColumns,
    firstNonBlankColIndex, headersOf, dataOf, parseLines, cleanCell.
  cbv zeta.
  assert (Hloop : forall data n i,
             Part000.firstNonBlankFrom data n i = firstNonBlankFrom data n i).
  { intros data n. induction n as [|n IH]; intros i; simpl; [reflexivity|].
    unfold cellNotEmpty at 1.
    destruct (existsb _ data); [reflexivity | apply IH]. }
  now rewrite Hloop.
Qed.

(** The prompt builder's serialization can be parsed back: for a table
    whose rows are not empty arrays and whose cells hold no comma and no
    newline and are unchanged by the cell clean-up, parsing the text that
    [formatData] writes gives the header row followed by the rows. *)
Theorem formatData_parse_roundtrip (headers : list jsstring) (data : CSVData) :
  (forall row, In row (headers :: data) ->
     row <> [] /\
     forall cell, In cell row -> ~ In comma cell /\ ~ In newline cell) ->
  cellsSettled (headers, data) = true ->
  parseLines (App.formatData headers data) = headers :: data.
Proof.
  intros Hrows Hsettled. unfold App.formatData.
  change (join (str ", ") headers :: map (join (str ", ")) data)
    with (map (join (str ", ")) (headers :: data)).
  apply reparse_table; [discriminate | exact Hrows | exact Hsettled].
Qed.

Lemma formatData_parse_roundtrip_witness :
  parseLines (App.formatData [str "id"; str "full name"] [[str "7"; []]])
  = [[str "id"; str "full name"]; [str "7"; []]].
Proof.
  apply (formatData_parse_roundtrip [str "id"; str "full name"] [[str "7"; []]]);
    [|reflexivity].
  intros row [<-|[<-|[]]]; (split; [discriminate|]);
    intros cell Hin; simpl in Hin;
    repeat (destruct Hin as [<-|Hin]; [vm_compute; intuition discriminate|]);
    destruct Hin.
Defined.

(** Whatever blank columns led the text, when the normalized header row
    is not empty and every normalized cell is unchanged by the cell
    clean-up, normalizing the serialization of the normalized table gives
    the normalized table. *)
Theorem processCSV_serialize_roundtrip (csvText : jsstring) :
  fst (App.processCSV csvText) <> [] ->
  cellsSettled (App.processCSV csvText) = true ->
  App.processCSV (App.serialize (App.processCSV csvText))
  = App.processCSV csvText.
Proof.
  intros Hne Hsettled.
  pose proof (first_column_of_result csvText Hne) as Hcol.
  pose proof (result_rows_truthy csvText) as Htruthy.
  pose proof (fun row => result_rows_wellformed csvText row Hne) as Hwf.
  destruct (App.processCSV csvText) as [headers data] eqn:E.
  cbn [fst snd] in *. unfold tableCells in *. cbn [fst snd] in *.
  apply processCSV_of_clean_grid; [|exact Htruthy|exact Hcol].
  unfold App.serialize, App.formatData. cbn [fst snd].
  change (join (str ", ") headers :: map (join (str ", ")) data)
    with (map (join (str ", ")) (headers :: data)).
  apply reparse_table; [discriminate | exact Hwf | exact Hsettled].
Qed.

Lemma processCSV_serialize_roundtrip_witness :
  let csvText := str ",, name ,qty" ++ nl ++ str ",,apple, 3" ++ nl in
  App.processCSV csvText = ([str "name"; str "qty"], [[str "apple"; str "3"]])
  /\ App.processCSV (App.serialize (App.processCSV csvText))
     = App.processCSV csvText.
Proof.
  cbv zeta. split; [reflexivity|].
  apply (processCSV_serialize_roundtrip
           (str ",, name ,qty" ++ nl ++ str ",,apple, 3" ++ nl));
    [vm_compute; discriminate | reflexivity].
Defined.

(** The single-provider variant writes the tables with a bare comma; the
    same round trip holds for it. *)
Theorem part000_serialize_roundtrip (csvText : jsstring) :
  fst (Part000.processCSV csvText) <> [] ->
  cellsSettled (Part000.processCSV csvText) = true ->
  Part000.processCSV
    (Part000.toCSV (fst (Part000.processCSV csvText))
                   (snd (Part000.processCSV csvText)))
  = Part000.processCSV csvText.
Proof.
  rewrite !part000_processCSV_same. intros Hne Hsettled.
  pose proof (first_column_of_result csvText Hne) as Hcol.
  pose proof (result_rows_truthy csvText) as Htruthy.
  pose proof (fun row => result_rows_wellformed csvText row Hne) as Hwf.
  destruct (App.processCSV csvText) as [headers data] eqn:E.
  cbn [fst snd] in *. unfold tableCells in *. cbn [fst snd] in *.
  apply processCSV_of_clean_grid; [|exact Htruthy|exact Hcol].
  unfold Part000.toCSV.
  apply reparse_table_bare; [discriminate | exact Hwf | exact Hsettled].
Qed.

Lemma part000_serialize_roundtrip_witness :
  let csvText := str ",, name ,qty" ++ nl ++ str ",,apple, 3" ++ nl in
  Part000.toCSV (fst (Part000.processCSV csvText)) (snd (Part000.processCSV csvText))
    = str "name,qty" ++ nl ++ str "apple,3"
  /\ Part000.processCSV
       (Part000.toCSV (fst (Part000.processCSV csvText))
                      (snd (Part000.processCSV csvText)))
     = Part000.processCSV csvText.
Proof.
  cbv zeta. split; [reflexivity|].
  apply (part000_serialize_roundtrip
           (str ",, name ,qty" ++ nl ++ str ",,apple, 3" ++ nl));
    [vm_compute; discriminate | reflexivity].
Defined.

(** ** More on the fence stripper *)

Lemma stripFence_two_steps (text : jsstring) :
  stripFence text = stripClose (stripOpen text).
Proof. rewrite stripFence_stripOpen. apply replace_from_stripClose. Qed.

(** A response that is a csv-tagged fence, a body and a closing fence
    comes out as the body with the white space at its two ends removed,
    whatever the body holds. *)
Theorem stripFence_fenced (body : jsstring) :
  stripFence (fence_open ++ body ++ fence_close) = trim body.
Proof.
  rewrite stripFence_stripOpen. unfold stripOpen.
  rewrite starts_with_app.
  change (skipn 6 (fence_open ++ body ++ fence_close))
    with (body ++ fence_close).
  destruct (forallb isWhiteSpace body) eqn:E.
  - rewrite dropWhile_app_all by assumption.
    now rewrite trim_all_blank.
  - rewrite dropWhile_app_some by assumption. unfold trim.
    destruct (dropWhileEnd_split isWhiteSpace (dropWhile isWhiteSpace body))
      as (w & Hd & Hw).
    rewrite Hd at 1. rewrite <- app_assoc.
    apply replace_from_body; [exact Hw|].
    intros b x Hb.
    apply (dropWhileEnd_last isWhiteSpace _ b x Hb).
Qed.

Lemma stripOpen_suffix (text : jsstring) :
  exists pre, text = pre ++ stripOpen text.
Proof.
  unfold stripOpen. destruct (starts_with fence_open text); [|now exists []].
  exists (firstn 6 text ++ takeWhile isWhiteSpace (skipn 6 text)).
  now rewrite <- app_assoc, takeWhile_dropWhile, firstn_skipn.
Qed.

Lemma stripClose_prefix (text : jsstring) :
  exists post, text = stripClose text ++ post.
Proof.
  unfold stripClose. destruct (ends_with fence_close text);
    [|exists []; now rewrite app_nil_r].
  set (n := length text - 3).
  destruct (dropWhileEnd_split isWhiteSpace (firstn n text)) as (w & Hw & _).
  exists (w ++ skipn n text).
  now rewrite app_assoc, <- Hw, firstn_skipn.
Qed.

(** What the fence stripper returns is one contiguous piece of the
    response: it only cuts at the front and at the back. *)
Theorem stripFence_substring (text : jsstring) :
  exists pre post, text = pre ++ stripFence text ++ post.
Proof.
  rewrite stripFence_two_steps.
  destruct (stripOpen_suffix text) as (pre & Hpre).
  destruct (stripClose_prefix (stripOpen text)) as (post & Hpost).
  exists pre, post. now rewrite <- Hpost.
Qed.

Lemma stripOpen_length (text : jsstring) :
  length (stripOpen text) <= length text /\
  (starts_with fence_open text = true ->
   length (stripOpen text) < length text).
Proof.
  unfold stripOpen. destruct (starts_with fence_open text) eqn:E.
  - apply starts_with_inv in E as (r & ->).
    change (skipn 6 (fence_open ++ r)) with r.
    pose proof (dropWhile_length isWhiteSpace r).
    rewrite length_app. change (length fence_open) with 6. lia.
  - split; [lia | discriminate].
Qed.

Lemma stripClose_length (text : jsstring) :
  length (stripClose text) <= length text /\
  (ends_with fence_close text = true ->
   length (stripClose text) < length text).
Proof.
  unfold stripClose. destruct (ends_with fence_close text) eqn:E.
  - apply ends_with_inv in E as (r & ->).
    pose proof (dropWhileEnd_length isWhiteSpace
                  (firstn (length (r ++ fence_close) - 3) (r ++ fence_close))).
    rewrite length_firstn in H. rewrite length_app in *.
    change (length fence_close) with 3 in *. lia.
  - split; [lia | discriminate].
Qed.

(** The fence stripper returns the response as it is exactly when the
    response neither begins with the csv-tagged fence nor ends with three
    backticks. *)
Theorem stripFence_unchanged_iff (text : jsstring) :
  stripFence text = text
  <-> starts_with fence_open text = false /\ ends_with fence_close text = false.
Proof.
  rewrite stripFence_two_steps. split.
  - intros H. apply (f_equal (@length char)) in H.
    destruct (stripOpen_length text) as [Ho Ho'].
    destruct (stripClose_length (stripOpen text)) as [Hc Hc'].
    destruct (starts_with fence_open text) eqn:Es.
    { specialize (Ho' eq_refl). lia. }
    split; [reflexivity|].
    unfold stripOpen in *. rewrite Es in *.
    destruct (ends_with fence_close text); [|reflexivity].
    specialize (Hc' eq_refl). lia.
  - intros [Hs He]. unfold stripOpen. rewrite Hs.
    unfold stripClose. now rewrite He.
Qed.

(** ** More on the process action *)

Lemma length_eqb_0_nil {A} (l : list A) : (length l =? 0) = true <-> l = [].
Proof. destruct l; simpl; split; congruence. Qed.

(** With a credential but without rows in one of the two tables, the
    action only sets the message that asks for both files: no request is
    issued and nothing else changes. *)
Theorem processWithAI_missing_input refusal complete (st : App.State) :
  truthy (App.apiKey st) = true ->
  App.file1Data st = [] \/ App.file2Data st = [] ->
  App.processWithAI refusal complete st
  = (App.setError (str "Please upload both CSV files first") st, []).
Proof.
  intros Hkey Hfiles. unfold App.processWithAI. rewrite Hkey. cbn [negb].
  replace ((length (App.file1Data st) =? 0) || (length (App.file2Data st) =? 0))
    with true; [reflexivity|].
  symmetry. apply orb_true_iff.
  destruct Hfiles as [H|H]; [left | right]; now apply length_eqb_0_nil.
Qed.

Lemma processWithAI_missing_input_witness :
  App.processWithAI (str "refused") (fun _ => Returned (Some (str "x")))
    (App.initialState (Some (str "key")))
  = (App.setError (str "Please upload both CSV files first")
       (App.initialState (Some (str "key"))), []).
Proof.
  apply (processWithAI_missing_input (str "refused")
           (fun _ => Returned (Some (str "x")))
           (App.initialState (Some (str "key"))));
    [reflexivity | now left].
Defined.



(** When the process button is enabled and the provider is openai,
    deepseek or gemini, the action passes both guards and sends exactly
    the one request built from the state. *)
Theorem process_button_enabled_sends refusal complete (st : App.State) :
  App.processDisabled st = false ->
  App.selectedProvider st <> App.claude ->
  snd (App.processWithAI refusal complete st) = [App.buildRequest st].
Proof.
  unfold App.processDisabled. intros H Hp.
  apply orb_false_iff in H as [H Hkey].
  apply orb_false_iff in H as [H H2].
  apply orb_false_iff in H as [_ H1].
  unfold App.processWithAI. rewrite Hkey, H1, H2.
  now rewrite runProvider_sends.
Qed.

Lemma process_button_enabled_sends_witness :
  App.processDisabled (sampleApp (str "key")) = false /\
  snd (App.processWithAI (str "refused") (fun _ => ThrewOther)
         (sampleApp (str "key")))
  = [App.buildRequest (sampleApp (str "key"))].
Proof.
  split; [reflexivity|].
  apply (process_button_enabled_sends (str "refused") (fun _ => ThrewOther)
           (sampleApp (str "key"))); [reflexivity | discriminate].
Defined.

(** When the provider's branch throws, the action shows the thrown
    message (a fixed message when what was thrown is no [Error]), clears
    the displayed result, keeps the processed table and switches the
    processing flag off; it has sent the one request under openai,
    deepseek and gemini, and nothing under claude, and it does not try
    again. *)
Theorem processWithAI_completion_error refusal complete (st : App.State)
    message :
  truthy (App.apiKey st) = true ->
  App.file1Data st <> [] ->
  App.file2Data st <> [] ->
  thrownMessage (fst (App.runProvider refusal complete st)) = Some message ->
  let st' := fst (App.processWithAI refusal complete st) in
  App.error st' = message
  /\ App.processedResult st' = None
  /\ App.processedHeaders st' = App.processedHeaders st
  /\ App.processedData st' = App.processedData st
  /\ App.isProcessing st' = false
  /\ snd (App.processWithAI refusal complete st)
     = match App.selectedProvider st with
       | App.claude => []
       | _ => [App.buildRequest st]
       end.
Proof.
  intros Hkey H1 H2 Hthrow. unfold App.processWithAI.
  rewrite Hkey, (length_eqb_0 _ H1), (length_eqb_0 _ H2). cbn [negb orb].
  unfold App.runProvider in *.
  destruct (App.selectedProvider st); cbn [fst snd] in *;
    try (destruct (complete (App.buildRequest st)) as [content|m|]);
    simpl in Hthrow; try discriminate; injection Hthrow as <-;
    simpl; repeat split.
Qed.

Lemma processWithAI_completion_error_witness :
  let st' := fst (App.processWithAI (str "refused")
                    (fun _ => ThrewError (str "401"))
                    (sampleApp (str "key"))) in
  App.error st' = str "401" /\ App.processedResult st' = None
  /\ snd (App.processWithAI (str "refused") (fun _ => ThrewError (str "401"))
            (sampleApp (str "key")))
     = [App.buildRequest (sampleApp (str "key"))].
Proof.
  cbv zeta.
  destruct (processWithAI_completion_error (str "refused")
              (fun _ => ThrewError (str "401"))
              (sampleApp (str "key")) (str "401"))
    as (He & Hr & _ & _ & _ & Hs);
    [reflexivity | discriminate | discriminate | reflexivity |].
  repeat split; assumption.
Defined.

(** When the model returns a text, the action stores the text with the
    fences stripped as the result, shows its normalization as the
    processed table, leaves no error, switches the processing flag off,
    and the download then offers exactly the stored text (nothing when
    stripping left the empty string). *)
Theorem processWithAI_success refusal complete (st : App.State) text :
  truthy (App.apiKey st) = true ->
  App.file1Data st <> [] ->
  App.file2Data st <> [] ->
  fst (App.runProvider refusal complete st) = Returned (Some text) ->
  truthy text = true ->
  let st' := fst (App.processWithAI refusal complete st) in
  App.processedResult st' = Some (stripFence text)
  /\ (App.processedHeaders st', App.processedData st')
     = App.processCSV (stripFence text)
  /\ App.error st' = []
  /\ App.isProcessing st' = false
  /\ snd (App.processWithAI refusal complete st) = [App.buildRequest st]
  /\ App.handleDownload st'
     = if truthy (stripFence text)
       then Some (App.mkDownload (str "processed-comparison.csv")
                    (str "text/csv") (stripFence text))
       else None.
Proof.
  intros Hkey H1 H2 Hret Htext.
  assert (Hp : App.selectedProvider st <> App.claude).
  { intros Hp. rewrite (runProvider_claude _ _ _ Hp) in Hret. discriminate. }
  rewrite (runProvider_sends _ _ _ Hp) in Hret. cbn [fst] in Hret.
  unfold App.processWithAI.
  rewrite Hkey, (length_eqb_0 _ H1), (length_eqb_0 _ H2). cbn [negb orb].
  rewrite (runProvider_sends _ _ _ Hp). cbn [fst snd]. rewrite Hret.
  assert (Hres : App.resultOf (App.selectedProvider st) (Some text) = Some text)
    by now destruct (App.selectedProvider st).
  rewrite Hres, Htext. unfold App.receiveResult.
  destruct (App.processCSV (stripFence text)) as [newHeaders newData].
  cbn. repeat split.
  unfold App.handleDownload. cbn. now destruct (truthy (stripFence text)).
Qed.

Lemma processWithAI_success_witness :
  let reply := str "```csv" ++ nl ++ str "a,a" ++ nl ++ str "1," ++ nl ++ str "```" in
  let st' := fst (App.processWithAI (str "refused")
                    (fun _ => Returned (Some reply))
                    (sampleApp (str "key"))) in
  App.processedResult st' = Some (str "a,a" ++ nl ++ str "1,")
  /\ (App.processedHeaders st', App.processedData st')
     = ([str "a"; str "a"], [[str "1"; []]]).
Proof.
  cbv zeta.
  destruct (processWithAI_success (str "refused")
              (fun _ => Returned (Some (str "```csv" ++ nl ++ str "a,a" ++ nl
                                         ++ str "1," ++ nl ++ str "```")))
              (sampleApp (str "key"))
              (str "```csv" ++ nl ++ str "a,a" ++ nl ++ str "1," ++ nl ++ str "```"))
    as (Hr & Ht & _);
    [reflexivity | discriminate | discriminate | reflexivity | reflexivity |].
  split; [exact Hr | exact Ht].
Defined.

(** Whatever the completion does, the action never touches the two
    loaded tables, the credential, the provider or the model. *)
Theorem processWithAI_preserves_inputs refusal complete (st : App.State) :
  let st' := fst (App.processWithAI refusal complete st) in
  App.file1Data st' = App.file1Data st
  /\ App.file2Data st' = App.file2Data st
  /\ App.headers1 st' = App.headers1 st
  /\ App.headers2 st' = App.headers2 st
  /\ App.apiKey st' = App.apiKey st
  /\ App.selectedProvider st' = App.selectedProvider st
  /\ App.selectedModel st' = App.selectedModel st.
Proof.
  unfold App.processWithAI.
  destruct (negb (truthy (App.apiKey st))); [simpl; repeat split|].
  destruct ((length (App.file1Data st) =? 0) || (length (App.file2Data st) =? 0));
    [simpl; repeat split|].
  cbn [fst].
  destruct (fst (App.runProvider refusal complete st)) as [content|m|];
    [|simpl; repeat split..].
  destruct (App.resultOf (App.selectedProvider st) content) as [result|];
    [|simpl; repeat split].
  destruct (truthy result); [|simpl; repeat split].
  unfold App.receiveResult.
  destruct (App.processCSV (stripFence result)). simpl. repeat split.
Qed.

(** ** Uploads *)

(** The two upload slots are independent: loading the first file and
    then the second gives the same state as loading them the other way
    round; and a second upload into a slot replaces the first one. *)
Theorem handleFileUpload_independent (a b : option jsstring) (st : App.State) :
  App.handleFileUpload b App.file2 (App.handleFileUpload a App.file1 st)
  = App.handleFileUpload a App.file1 (App.handleFileUpload b App.file2 st)
  /\ forall text fileNumber,
       App.handleFileUpload (Some text) fileNumber
         (App.handleFileUpload a fileNumber st)
       = App.handleFileUpload (Some text) fileNumber st.
Proof.
  split.
  - destruct a as [ta|], b as [tb|]; unfold App.handleFileUpload;
      try destruct (App.processCSV ta); try destruct (App.processCSV tb);
      reflexivity.
  - intros text fileNumber. destruct a as [ta|]; [|reflexivity].
    unfold App.handleFileUpload.
    destruct (App.processCSV ta), (App.processCSV text).
    now destruct fileNumber.
Qed.

(** A file in which no line after the first has a non-empty cell leaves
    its table without rows, so with a credential set the process action
    still asks for both files and sends nothing. *)
Theorem upload_without_rows_is_missing_input refusal complete
    (st : App.State) (text : jsstring) (fileNumber : App.FileNumber) :
  dataOf (parseLines text) = [] ->
  truthy (App.apiKey st) = true ->
  let st1 := App.handleFileUpload (Some text) fileNumber st in
  App.processWithAI refusal complete st1
  = (App.setError (str "Please upload both CSV files first") st1, []).
Proof.
  intros Hdata Hkey st1.
  assert (Hrows : snd (App.processCSV text) = []).
  { rewrite processCSV_unfold. cbv zeta. now rewrite Hdata. }
  assert (Hkey1 : truthy (App.apiKey st1) = true).
  { subst st1. unfold App.handleFileUpload.
    destruct (App.processCSV text). now destruct fileNumber. }
  assert (Hfiles : (length (App.file1Data st1) =? 0)
                   || (length (App.file2Data st1) =? 0) = true).
  { subst st1. unfold App.handleFileUpload.
    destruct (App.processCSV text) as [h d]. cbn [snd] in Hrows. subst d.
    destruct fileNumber; simpl; [reflexivity | apply orb_true_r]. }
  unfold App.processWithAI. now rewrite Hkey1, Hfiles.
Qed.

Lemma upload_without_rows_witness :
  let st1 := App.handleFileUpload (Some (str "name,qty" ++ nl)) App.file2
               (sampleApp (str "key")) in
  App.headers2 st1 = [str "name"; str "qty"]
  /\ App.processWithAI (str "refused") (fun _ => ThrewOther) st1
     = (App.setError (str "Please upload both CSV files first") st1, []).
Proof.
  cbv zeta. split; [reflexivity|].
  apply (upload_without_rows_is_missing_input (str "refused")
           (fun _ => ThrewOther)
           (sampleApp (str "key")) (str "name,qty" ++ nl) App.file2);
    reflexivity.
Defined.

(** ** The states the component can reach *)

Lemma result_rows_forallb (text : jsstring) :
  forallb (existsb truthy) (snd (App.processCSV text)) = true.
Proof. apply forallb_forall. apply result_rows_truthy. Qed.

Lemma tablesClean_intro (st : App.State) :
  forallb (existsb truthy) (App.file1Data st) = true ->
  forallb (existsb truthy) (App.file2Data st) = true ->
  forallb (existsb truthy) (App.processedData st) = true ->
  tablesClean st = true.
Proof. unfold tablesClean. intros -> -> ->. reflexivity. Qed.

Lemma tablesClean_inv (st : App.State) :
  tablesClean st = true ->
  forallb (existsb truthy) (App.file1Data st) = true
  /\ forallb (existsb truthy) (App.file2Data st) = true
  /\ forallb (existsb truthy) (App.processedData st) = true.
Proof.
  unfold tablesClean. intros H.
  apply andb_prop in H as [H H3]. apply andb_prop in H as [H1 H2]. auto.
Qed.

Lemma consistent_initial (envKey : option jsstring) :
  consistent (App.initialState envKey).
Proof.
  repeat split.
  - simpl. right. now left.
  - intros result H. discriminate.
Qed.

Lemma consistent_upload file fileNumber (st : App.State) :
  consistent st -> consistent (App.handleFileUpload file fileNumber st).
Proof.
  intros (Hc & Hm & Hp & Hr). destruct file as [text|]; [|repeat split; assumption].
  apply tablesClean_inv in Hc as (H1 & H2 & H3).
  unfold App.handleFileUpload.
  pose proof (result_rows_forallb text) as Hrows.
  destruct (App.processCSV text) as [headers data]. cbn [snd] in Hrows.
  destruct fileNumber; (split; [now apply tablesClean_intro|]);
    repeat split; assumption.
Qed.

Lemma consistent_provider newProvider (st : App.State) :
  consistent st -> consistent (App.handleProviderChange newProvider st).
Proof.
  intros (Hc & Hm & Hp & Hr).
  split; [|split; [|split]].
  - now destruct newProvider.
  - unfold modelValid. destruct newProvider; simpl; now left.
  - now destruct newProvider.
  - now destruct newProvider.
Qed.

Lemma consistent_model index (st : App.State) :
  consistent st -> consistent (App.handleModelChange index st).
Proof.
  intros (Hc & Hm & Hp & Hr). unfold App.handleModelChange.
  destruct (nth_error (App.modelOptions (App.selectedProvider st)) index)
    as [option|] eqn:E; [|repeat split; assumption].
  split; [exact Hc|]. split; [|split; assumption].
  unfold modelValid. simpl. apply in_map. now apply nth_error_In in E.
Qed.

Lemma consistent_process refusal complete (st : App.State) :
  consistent st -> consistent (fst (App.processWithAI refusal complete st)).
Proof.
  intros (Hc & Hm & Hp & Hr). unfold App.processWithAI.
  destruct (negb (truthy (App.apiKey st))); [repeat split; assumption|].
  destruct ((length (App.file1Data st) =? 0) || (length (App.file2Data st) =? 0));
    [repeat split; assumption|].
  assert (Hcleared : forall st2,
            tablesClean st2 = true -> modelValid st2 ->
            App.processedResult st2 = None ->
            consistent (App.setIsProcessing false st2)).
  { intros st2 H1 H2 H3. repeat split; try assumption.
    intros result H. simpl in H. congruence. }
  cbn [fst].
  destruct (fst (App.runProvider refusal complete st)) as [content|m|];
    [|now apply Hcleared..].
  destruct (App.resultOf (App.selectedProvider st) content) as [result|];
    [|now apply Hcleared].
  destruct (truthy result); [|now apply Hcleared].
  apply tablesClean_inv in Hc as (H1 & H2 & H3).
  unfold App.receiveResult.
  pose proof (result_rows_forallb (stripFence result)) as Hrows.
  destruct (App.processCSV (stripFence result)) as [newHeaders newData] eqn:E.
  cbn [snd] in Hrows.
  split; [now apply tablesClean_intro|]. split; [exact Hm|].
  split; [reflexivity|].
  intros r H. simpl in H. injection H as <-. simpl. now rewrite E.
Qed.

Lemma consistent_step refusal (st : App.State) (e : Event) :
  consistent st -> consistent (applyEvent refusal st e).
Proof.
  destruct e; simpl.
  - apply consistent_upload.
  - apply consistent_provider.
  - apply consistent_model.
  - intros (Hc & Hm & Hp & Hr). repeat split; assumption.
  - apply consistent_process.
Qed.

(** After any sequence of uploads, provider, model and key changes and
    process actions from the initial state: every row of the two loaded
    tables and of the processed table has a non-empty cell, the selected
    model is one of the selected provider's models, the processing flag
    is off, and when a result is stored the processed table on display
    is the normalization of that result. *)
Theorem reachable_states_consistent (refusal : jsstring)
    (envKey : option jsstring) (events : list Event) :
  let st := runEvents refusal events (App.initialState envKey) in
  tablesClean st = true
  /\ modelValid st
  /\ App.isProcessing st = false
  /\ resultShown st.
Proof.
  cbv zeta.
  change (consistent (runEvents refusal events (App.initialState envKey))).
  unfold runEvents.
  generalize (consistent_initial envKey).
  generalize (App.initialState envKey).
  induction events as [|e events IH]; intros st Hst; [exact Hst|].
  simpl. apply IH. now apply consistent_step.
Qed.

(** ** The side-by-side view *)

Lemma map_seq_const {B} (d : B) (k n : nat) :
  map (fun _ => d) (seq k n) = repeat d n.
Proof.
  revert k. induction n as [|n IH]; intros k; [reflexivity|].
  simpl. now rewrite IH.
Qed.

Lemma map_seq_nth_error {A B} (g : A -> B) (d : B) (l : list A) (n : nat) :
  map (fun i => match nth_error l i with Some x => g x | None => d end)
      (seq 0 n)
  = firstn n (map g l) ++ repeat d (n - length l).
Proof.
  revert l. induction n as [|n IH]; intros l; [reflexivity|].
  cbn [seq]. rewrite <- seq_shift, map_cons, map_map.
  destruct l as [|x l].
  - cbn [nth_error map firstn length app Nat.sub repeat]. f_equal.
    apply (map_seq_const d 0 n).
  - cbn [nth_error map firstn length Nat.sub]. rewrite <- app_comm_cons.
    f_equal. apply IH.
Qed.

Lemma displayRow_fit (row : list jsstring) (cols : nat) :
  map (fun colIndex =>
         match nth_error row colIndex with
         | Some cell => if truthy cell then cell else []
         | None => []
         end) (seq 0 cols)
  = fitRow cols row.
Proof.
  rewrite (map_seq_nth_error (fun cell => if truthy cell then cell else [])).
  unfold fitRow. f_equal. f_equal.
  rewrite <- (map_id row) at 2. apply map_ext. now intros [|c cell].
Qed.

Lemma displayPane_fit (data : CSVData) (rows cols : nat) :
  App.displayPane data rows cols
  = firstn rows (map (fitRow cols) data)
    ++ repeat (repeat [] cols) (rows - length data).
Proof.
  unfold App.displayPane.
  etransitivity;
    [|apply (map_seq_nth_error (fitRow cols) (repeat ([] : jsstring) cols)
               data rows)].
  apply map_ext. intros rowIndex. unfold App.displayCell.
  destruct (nth_error data rowIndex) as [row|]; [apply displayRow_fit|].
  apply map_seq_const.
Qed.

(** Each pane of the side-by-side view shows every row of its table cut
    or filled with empty cells to the width of its header row, followed
    by rows of empty cells up to the row count of the longer table. *)
Theorem side_by_side_view (st : App.State) :
  let cols1 := length (App.headers1 st) in
  let cols2 := length (App.headers2 st) in
  App.displayPane (App.file1Data st) (App.maxRows st) cols1
  = map (fitRow cols1) (App.file1Data st)
    ++ repeat (repeat [] cols1) (App.maxRows st - length (App.file1Data st))
  /\ App.displayPane (App.file2Data st) (App.maxRows st) cols2
     = map (fitRow cols2) (App.file2Data st)
       ++ repeat (repeat [] cols2) (App.maxRows st - length (App.file2Data st)).
Proof.
  cbv zeta. rewrite !displayPane_fit. unfold App.maxRows.
  split; (rewrite firstn_all2; [reflexivity|]); rewrite length_map; lia.
Qed.

(** ** The single-provider variant's process action *)

(** When the model returns a text, the variant stores the text with the
    fences stripped and shows its normalization; no error is left and
    the processing flag is off. *)
Theorem processWithOpenAI_success complete (st : Part000.State) text :
  truthy (Part000.apiKey st) = true ->
  Part000.file1Data st <> [] ->
  Part000.file2Data st <> [] ->
  complete (Part000.buildRequest st) = Returned (Some text) ->
  truthy text = true ->
  let st' := fst (Part000.processWithOpenAI complete st) in
  Part000.processedResult st' = Some (stripFence text)
  /\ (Part000.processedHeaders st', Part000.processedData st')
     = Part000.processCSV (stripFence text)
  /\ Part000.error st' = []
  /\ Part000.isProcessing st' = false
  /\ snd (Part000.processWithOpenAI complete st) = [Part000.buildRequest st].
Proof.
  intros Hkey H1 H2 Hret Htext. unfold Part000.processWithOpenAI.
  rewrite Hkey, (length_eqb_0 _ H1), (length_eqb_0 _ H2). cbn [negb orb].
  rewrite Hret, Htext. unfold Part000.receiveResult.
  destruct (Part000.processCSV (stripFence text)) as [newHeaders newData].
  cbn. repeat split.
Qed.

Lemma processWithOpenAI_success_witness :
  let st' := fst (Part000.processWithOpenAI
                    (fun _ => Returned (Some (str "a,b" ++ nl ++ str "```")))
                    (samplePart000 (str "key"))) in
  Part000.processedResult st' = Some (str "a,b").
Proof.
  cbv zeta.
  destruct (processWithOpenAI_success
              (fun _ => Returned (Some (str "a,b" ++ nl ++ str "```")))
              (samplePart000 (str "key")) (str "a,b" ++ nl ++ str "```"))
    as (Hr & _);
    [reflexivity | discriminate | discriminate | reflexivity | reflexivity |].
  exact Hr.
Defined.

(** When the awaited call throws, or a table has no rows, the variant
    shows the message and keeps its processed table; a thrown error
    clears the result and costs the one request, a missing table sends
    nothing. *)
Theorem processWithOpenAI_failure complete (st : Part000.State) :
  truthy (Part000.apiKey st) = true ->
  (Part000.file1Data st = [] \/ Part000.file2Data st = [] ->
   Part000.processWithOpenAI complete st
   = (Part000.setError (str "Please upload both CSV files first") st, []))
  /\ (forall message,
        Part000.file1Data st <> [] ->
        Part000.file2Data st <> [] ->
        thrownMessage (complete (Part000.buildRequest st)) = Some message ->
        let st' := fst (Part000.processWithOpenAI complete st) in
        Part000.error st' = message
        /\ Part000.processedResult st' = None
        /\ Part000.processedHeaders st' = Part000.processedHeaders st
        /\ Part000.processedData st' = Part000.processedData st
        /\ Part000.isProcessing st' = false
        /\ snd (Part000.processWithOpenAI complete st)
           = [Part000.buildRequest st]).
Proof.
  intros Hkey. split.
  - intros Hfiles. unfold Part000.processWithOpenAI. rewrite Hkey. cbn [negb].
    replace ((length (Part000.file1Data st) =? 0)
             || (length (Part000.file2Data st) =? 0)) with true; [reflexivity|].
    symmetry. apply orb_true_iff.
    destruct Hfiles as [H|H]; [left | right]; now apply length_eqb_0_nil.
  - intros message H1 H2 Hthrow. unfold Part000.processWithOpenAI.
    rewrite Hkey, (length_eqb_0 _ H1), (length_eqb_0 _ H2). cbn [negb orb].
    destruct (complete (Part000.buildRequest st)) as [content|m|];
      simpl in Hthrow; try discriminate; injection Hthrow as <-;
      simpl; repeat split.
Qed.

Lemma processWithOpenAI_failure_witness :
  Part000.error
    (fst (Part000.processWithOpenAI (fun _ => ThrewError (str "429"))
            (samplePart000 (str "key"))))
  = str "429".
Proof.
  destruct (processWithOpenAI_failure (fun _ => ThrewError (str "429"))
              (samplePart000 (str "key")) eq_refl) as [_ H].
  destruct (H (str "429")) as (He & _);
    [discriminate | discriminate | reflexivity |].
  exact He.
Defined.
